(** * ects: pipeline synchronizer, kill-signal watcher and kill-request emitter

    A shallow embedding of the node-local control plane of ects:

    - [WatchPipelines] and [WatchKiller] (package [pipeline], the watcher
      file), which replicate pipeline definitions from etcd into the
      scheduler's event queue and listen for presence changes;
    - [PostKiller] (controllers/pipeline/main.go), which writes a
      lease-bound kill marker;
    - the handlers of the same controller that write a pipeline to the
      relational store and to etcd ([Post], [PutBy], [DeleteBy],
      [PostNodes]), and those that read and reorder a pipeline's tasks
      ([GetTasks], [PutSteps]).

    The Go code is effectful: it calls the etcd client, pushes events to
    the scheduler, logs, sleeps and may panic.  A run is modelled as the
    ordered trace of the calls it makes, together with how it ended. *)

From Stdlib Require Import ZArith List String Bool Arith Lia.
From Stdlib Require Import Permutation Sorted.
Import ListNotations.
Local Open Scope string_scope.
Local Open Scope list_scope.

(** ** Go base types *)

(** Go's [error] interface, by its message; [nil] is [None]. *)
Definition error := string.

(** [int64]: a mathematical integer kept in range by wrap-around. *)
Definition int64_min : Z := (- 2 ^ 63)%Z.
Definition int64_max : Z := (2 ^ 63 - 1)%Z.

Definition wrap64 (z : Z) : Z := ((z + 2 ^ 63) mod 2 ^ 64 - 2 ^ 63)%Z.

Definition add64 (a b : Z) : Z := wrap64 (a + b).

(** ** The packages the watchers import *)

Module models.

(** Modelled from the spec: the struct [models.Pipeline] is declared in the
    package [models] of this repository, which is not part of the sources
    at hand.  The spec's data model gives it an identifier, an ordered list
    of task references and the list [Nodes] of node identifiers it is bound
    to; the watchers read [Id] and [Nodes]. *)
Record Pipeline : Type := {
  Id : string;
  Tasks : list string;
  Nodes : list string
}.

(** The zero value of [var pipeline models.Pipeline]. *)
Definition zero : Pipeline := {| Id := ""; Tasks := []; Nodes := [] |}.

End models.

Module mvccpb.

(** [mvccpb.Event_EventType]. *)
Inductive EventType : Type := PUT | DELETE.

Record KeyValue : Type := {
  Key : string;
  Value : string
}.

(** [mvccpb.Event].  [Kv] is always set by etcd (on a deletion it carries the
    key and an empty value); [PrevKv] is a pointer that stays [nil] unless the
    watch asked for previous values and the store still has one. *)
Record Event : Type := {
  Type_ : EventType;
  Kv : KeyValue;
  PrevKv : option KeyValue
}.

End mvccpb.

Module clientv3.

(** The functional options the code passes to [Get], [Watch] and [Put]. *)
Inductive OpOption : Type :=
| WithPrefix
| WithRev (rev : Z)
| WithPrevKV
| WithLease (id : Z).

Record ResponseHeader : Type := { Revision : Z }.

Record GetResponse : Type := {
  Header : ResponseHeader;
  Kvs : list mvccpb.KeyValue
}.

Record WatchResponse : Type := { Events : list mvccpb.Event }.

Record LeaseGrantResponse : Type := { ID : Z }.

(** What [Client.Get] returns: a response pointer and an error. *)
Definition GetResult : Type := (option GetResponse * option error)%type.

(** What [Client.Grant] returns. *)
Definition GrantResult : Type := (option LeaseGrantResponse * option error)%type.

End clientv3.

Module config.

(** [config.Conf.Etcd]: the two namespaces the code reads from the
    configuration. *)
Record Etcd : Type := {
  Pipeline : string;
  Killer : string
}.

End config.

(** ** Package [pipeline]: event types *)

Definition PUT : Z := 1%Z.
Definition DEL : Z := 2%Z.
Definition KILL : Z := 3%Z.

(** [Event].  The Go field [Pipeline] points at the loop-local variable
    [pipeline], which is declared afresh for every entry and never written
    after the push, so the event carries its value. *)
Record Event : Type := {
  Type_ : Z;
  Pipeline : models.Pipeline
}.

(** ** Runs: the trace of calls and the way the run ended *)

(** The calls the modelled functions make to their collaborators. *)
Inductive Call : Type :=
| ClientGet (key : string) (opts : list clientv3.OpOption)
| ClientWatch (key : string) (opts : list clientv3.OpOption)
| ClientGrant (ttl : Z)
| ClientPut (key val : string) (opts : list clientv3.OpOption)
| PushEvent (e : Event)
| LogPrintln (err : error)
| LogPrintf (format arg : string)
| TimeSleep (seconds : Z).

Inductive PanicValue : Type :=
| PanicErr (err : error)
| NilDereference.

(** How a run ends: it returns, it panics, or it is still looping when the
    fuel given to it is spent. *)
Inductive Outcome (A : Type) : Type :=
| Done (a : A)
| Panicked (v : PanicValue)
| StillLooping.

Arguments Done {A} a.
Arguments Panicked {A} v.
Arguments StillLooping {A}.

Definition Run (A : Type) : Type := (list Call * Outcome A)%type.

Definition ret {A : Type} (a : A) : Run A := ([], Done a).

Definition bind {A B : Type} (m : Run A) (k : A -> Run B) : Run B :=
  match m with
  | (t, Done a) => (t ++ fst (k a), snd (k a))
  | (t, Panicked v) => (t, Panicked v)
  | (t, StillLooping) => (t, StillLooping)
  end.

Definition call (c : Call) : Run unit := ([c], Done tt).

Definition panic {A : Type} (v : PanicValue) : Run A := ([], Panicked v).

(** Reading a field through a pointer: a nil pointer panics. *)
Definition deref {A : Type} (p : option A) : Run A :=
  match p with
  | Some a => ret a
  | None => panic NilDereference
  end.

Declare Scope run_scope.
Delimit Scope run_scope with run.
Notation "x <- m ;; k" := (bind m (fun x => k))
  (at level 61, m at next level, right associativity) : run_scope.
Notation "m ;; k" := (bind m (fun _ => k))
  (at level 61, right associativity) : run_scope.
Local Open Scope run_scope.

(** [for _, x := range xs { body }]. *)
Fixpoint range {A : Type} (xs : list A) (body : A -> Run unit) : Run unit :=
  match xs with
  | [] => ret tt
  | x :: rest => body x ;; range rest body
  end.

(** ** Reading traces *)

Definition pushed_of (c : Call) : list Event :=
  match c with
  | PushEvent e => [e]
  | _ => []
  end.

(** The events handed to the scheduler queue, in order. *)
Definition pushed (t : list Call) : list Event := flat_map pushed_of t.

Definition is_watch (c : Call) : bool :=
  match c with
  | ClientWatch _ _ => true
  | _ => false
  end.

Definition is_store (c : Call) : bool :=
  match c with
  | ClientGet _ _ | ClientWatch _ _ | ClientGrant _ | ClientPut _ _ _ => true
  | _ => false
  end.

(** The watches a run opened, and all its calls to the store. *)
Definition watches (t : list Call) : list Call := filter is_watch t.
Definition store_calls (t : list Call) : list Call := filter is_store t.

(** ** Package [pipeline] of the controllers: requests and responses *)

Record KillPipelineRequest : Type := { PipelineId : string }.

(** [validator.ValidationErrors], by the message [message.Get] makes of it. *)
Definition ValidationErrors := string.

(** [mvc.Response], as built by the package [response]. *)
Inductive Response : Type :=
| InternalServerError (message : string) (err : error)
| ValidationError (message : string)
| Success (message : string) (data : list (string * string)).

(** ** Sample data for the concrete runs *)

Definition sample_conf : config.Etcd :=
  {| config.Pipeline := "/ects/pipelines"; config.Killer := "/ects/killer" |}.

Definition pipeline_A : models.Pipeline :=
  {| models.Id := "A"; models.Tasks := []; models.Nodes := ["n1"] |}.
Definition pipeline_B : models.Pipeline :=
  {| models.Id := "B"; models.Tasks := []; models.Nodes := ["n2"] |}.
Definition pipeline_B' : models.Pipeline :=
  {| models.Id := "B"; models.Tasks := []; models.Nodes := ["n1"; "n2"] |}.
Definition pipeline_C : models.Pipeline :=
  {| models.Id := "C"; models.Tasks := []; models.Nodes := ["n1"; "n2"; "n1"] |}.
Definition pipeline_E : models.Pipeline :=
  {| models.Id := "E"; models.Tasks := []; models.Nodes := [] |}.

(** A decoder for the concrete runs.  [json.Unmarshal] and the wire form of
    a pipeline are outside the sources at hand, so the sample store holds
    named encodings and the decoder is a table over them.  Any other input
    is rejected and leaves the destination as it was, as [json.Unmarshal]
    does on a syntax error; [enc(D)] stands for a document that names its
    nodes and then has a field of the wrong type: the decoder fills what it
    could and reports the error. *)
Definition sample_table : list (string * (models.Pipeline * option error)) :=
  [ ("enc(A)", (pipeline_A, None));
    ("enc(B)", (pipeline_B, None));
    ("enc(B')", (pipeline_B', None));
    ("enc(C)", (pipeline_C, None));
    ("enc(E)", (pipeline_E, None));
    ("enc(D)", ({| models.Id := "D"; models.Tasks := []; models.Nodes := ["n1"] |},
                Some "json: cannot unmarshal number into Go struct field") ) ].

Fixpoint sample_lookup (data : string)
  (table : list (string * (models.Pipeline * option error)))
  : option (models.Pipeline * option error) :=
  match table with
  | [] => None
  | (k, r) :: rest => if String.eqb k data then Some r else sample_lookup data rest
  end.

Definition sample_Unmarshal (data : string) (dst : models.Pipeline)
  : models.Pipeline * option error :=
  match sample_lookup data sample_table with
  | Some r => r
  | None => (dst, Some "unexpected end of JSON input")
  end.

Definition kv (k v : string) : mvccpb.KeyValue :=
  {| mvccpb.Key := k; mvccpb.Value := v |}.

(** The [required] half of the tag [required,uuid4], and the identity for
    [message.Get]: enough for the concrete runs. *)
Definition sample_validate (params : KillPipelineRequest) : option ValidationErrors :=
  if String.eqb (PipelineId params) "" then Some "pipeline_id is required" else None.

Definition sample_message_Get (_ : string) (errs : ValidationErrors) : string := errs.

Definition sample_request : KillPipelineRequest :=
  {| PipelineId := "0b5ad9d2-7e0c-4c0b-9a57-6a1f4f3c2d10" |}.

(** A store at revision 41 holding the pipelines [A] and [B]. *)
Definition sample_snapshot : clientv3.GetResponse :=
  {| clientv3.Header := {| clientv3.Revision := 41 |};
     clientv3.Kvs := [ kv "/ects/pipelines/A" "enc(A)"; kv "/ects/pipelines/B" "enc(B)" ] |}.

(** A store that refuses two reads and answers the third. *)
Definition sample_gets (i : nat) : clientv3.GetResult :=
  if Nat.ltb i 2 then (None, Some "context deadline exceeded")
  else (Some sample_snapshot, None).

(** A [Get] that returned an error. *)
Definition get_failed (r : clientv3.GetResult) : bool :=
  match snd r with
  | Some _ => true
  | None => false
  end.

(** ** Reading traces, continued *)

(** A change the streaming loop of WatchPipelines can read to its end: a
    deletion has to carry its previous value. *)
Definition carries_prev (event : mvccpb.Event) : bool :=
  match mvccpb.Type_ event, mvccpb.PrevKv event with
  | mvccpb.DELETE, None => false
  | _, _ => true
  end.

(** The two event types the watchers construct. *)
Definition is_put_or_del (e : Event) : bool :=
  (Type_ e =? PUT)%Z || (Type_ e =? DEL)%Z.

(** The revision a snapshot read reports, when it returned a response. *)
Definition reported_revision (r : clientv3.GetResult) : option Z :=
  option_map (fun resp => clientv3.Revision (clientv3.Header resp)) (fst r).

(** A call that hands the scheduler nothing but PUT and DELETE events, and
    a call that hands it nothing. *)
Definition pushes_put_or_del (c : Call) : bool := forallb is_put_or_del (pushed_of c).

Definition pushes_nothing (c : Call) : bool :=
  match c with
  | PushEvent _ => false
  | _ => true
  end.

(** ** Package [models]: tasks and their place in a pipeline *)

Module task.

(** [models.Task].  The struct is declared in the package [models], outside
    the files modelled here; the controller reads [Id], and [Name] stands for
    the other columns. *)
Record Task : Type := {
  Id : string;
  Name : string
}.

End task.

Module pivot.

(** [models.PipelineTaskPivot], with the fields the controller uses.  [Step]
    is a Go [int]: it is assigned [params.Current + 1]. *)
Record PipelineTaskPivot : Type := {
  Id : string;
  PipelineId : string;
  TaskId : string;
  Step : Z;
  Task : option task.Task
}.

Definition with_Step (s : Z) (p : PipelineTaskPivot) : PipelineTaskPivot :=
  {| Id := Id p; PipelineId := PipelineId p; TaskId := TaskId p; Step := s; Task := Task p |}.

Definition with_Task (t : option task.Task) (p : PipelineTaskPivot) : PipelineTaskPivot :=
  {| Id := Id p; PipelineId := PipelineId p; TaskId := TaskId p; Step := Step p; Task := t |}.

End pivot.

Module putsteps.

(** [PutStepsRequest]. *)
Record PutStepsRequest : Type := {
  PipelineId : string;
  Origin : Z;
  Current : Z
}.

End putsteps.

Module response.

(** [mvc.Response] with its payload: what [response.InternalServerError],
    [response.ValidationError] and [response.Success] build. *)
Inductive Response (D : Type) : Type :=
| InternalServerError (message : string) (err : error)
| ValidationError (message : string)
| Success (message : string) (data : D).

Arguments InternalServerError {D} message err.
Arguments ValidationError {D} message.
Arguments Success {D} message data.

End response.

(** ** Handlers: the calls made so far, and how the handler left *)

(** A handler leaves by a [return] or by a run-time panic on an index out of
    range. *)
Inductive Exit (R : Type) : Type :=
| Return (r : R)
| IndexOutOfRange (index : Z) (len : nat).

Arguments Return {R} r.
Arguments IndexOutOfRange {R} index len.

(** A step of a handler: from the calls made so far to the calls made after
    it, and either a value to go on with or the way the handler left. *)
Definition Handler (C R A : Type) : Type := list C -> list C * (A + Exit R).

Definition hret {C R A : Type} (a : A) : Handler C R A := fun log => (log, inl a).

Definition hbind {C R A B : Type} (m : Handler C R A) (k : A -> Handler C R B)
  : Handler C R B :=
  fun log =>
    match m log with
    | (log', inl a) => k a log'
    | (log', inr e) => (log', inr e)
    end.

Definition hreturn {C R A : Type} (r : R) : Handler C R A :=
  fun log => (log, inr (Return r)).

Definition hpanic {C R A : Type} (index : Z) (len : nat) : Handler C R A :=
  fun log => (log, inr (IndexOutOfRange index len)).

(** [xs[index]]: a checked read. *)
Definition at_index {C R A : Type} (xs : list A) (index : Z) : Handler C R A :=
  if (0 <=? index)%Z then
    match nth_error xs (Z.to_nat index) with
    | Some x => hret x
    | None => hpanic index (List.length xs)
    end
  else hpanic index (List.length xs).

(** A handler from its first call to its exit. *)
Definition handle {C R : Type} (h : Handler C R R) : list C * Exit R :=
  match h [] with
  | (log, inl r) => (log, Return r)
  | (log, inr e) => (log, e)
  end.

Declare Scope handler_scope.
Delimit Scope handler_scope with handler.
Notation "x <- m ;; k" := (hbind m (fun x => k))
  (at level 61, m at next level, right associativity) : handler_scope.

(** The list with its [n]-th element replaced. *)
Fixpoint set_nth {A : Type} (n : nat) (x : A) (l : list A) : list A :=
  match l, n with
  | [], _ => []
  | _ :: rest, O => x :: rest
  | y :: rest, S n' => y :: set_nth n' x rest
  end.

(** ** Describing what PutSteps does to the relations *)

(** A relation after [Step += delta]. *)
Definition bump (delta : Z) (p : pivot.PipelineTaskPivot) : pivot.PipelineTaskPivot :=
  pivot.with_Step (add64 (pivot.Step p) delta) p.

(** The relations from position [index] on, after a guarded loop that ran to
    its end, and the rows that loop wrote. *)
Fixpoint bump_where (guard : Z -> bool) (delta index : Z)
  (l : list pivot.PipelineTaskPivot) : list pivot.PipelineTaskPivot :=
  match l with
  | [] => []
  | p :: rest =>
      (if guard index then bump delta p else p)
        :: bump_where guard delta (index + 1) rest
  end.

Fixpoint written_where (guard : Z -> bool) (delta index : Z)
  (l : list pivot.PipelineTaskPivot) : list pivot.PipelineTaskPivot :=
  match l with
  | [] => []
  | p :: rest =>
      (if guard index then [bump delta p] else [])
        ++ written_where guard delta (index + 1) rest
  end.

(** The steps of the relations are [k], [k + 1], ... in order. *)
Fixpoint numbered (k : Z) (l : list pivot.PipelineTaskPivot) : Prop :=
  match l with
  | [] => True
  | p :: rest => pivot.Step p = k /\ numbered (k + 1) rest
  end.

(** The relations with the steps [k], [k + 1], ... in order. *)
Fixpoint renumber (k : Z) (l : list pivot.PipelineTaskPivot)
  : list pivot.PipelineTaskPivot :=
  match l with
  | [] => []
  | p :: rest => pivot.with_Step k p :: renumber (k + 1) rest
  end.

(** The list with the element at position [origin] taken out and put back
    at position [current]. *)
Definition move {A : Type} (origin current : nat) (l : list A) : list A :=
  match nth_error l origin with
  | Some x =>
      let others := firstn origin l ++ skipn (S origin) l in
      firstn current others ++ x :: skipn current others
  | None => l
  end.

(** What [sort.Slice] with the comparison [Step < Step] guarantees: the same
    elements, with no element's step below that of an earlier one.  (The
    sort is not stable.) *)
Definition sorts_by_step
  (sort : list pivot.PipelineTaskPivot -> list pivot.PipelineTaskPivot) : Prop :=
  forall l,
    Permutation (sort l) l /\
    StronglySorted (fun a b => (pivot.Step a <= pivot.Step b)%Z) (sort l).

(** The ways PutSteps leaves when the reordering fails: a panic, or the
    answer to a refused [Update]. *)
Definition reorder_failed {D : Type} (e : Exit (response.Response D)) : bool :=
  match e with
  | IndexOutOfRange _ _ => true
  | Return (response.InternalServerError message _) => String.eqb message "排序失败"
  | Return _ => false
  end.

Definition is_success {D : Type} (e : Exit (response.Response D)) : bool :=
  match e with
  | Return (response.Success _ _) => true
  | _ => false
  end.

(** ** The controller's handlers that write a pipeline *)

Module bindnode.

(** [BindNodeRequest]. *)
Record BindNodeRequest : Type := {
  PipelineId : string;
  NodesId : list string
}.

End bindnode.

Module nodepivot.

(** [models.PipelineNodePivot], with the fields the controller sets. *)
Record PipelineNodePivot : Type := {
  PipelineId : string;
  NodeId : string
}.

End nodepivot.

Definition with_Id (id : string) (p : models.Pipeline) : models.Pipeline :=
  {| models.Id := id; models.Tasks := models.Tasks p; models.Nodes := models.Nodes p |}.

Definition with_Nodes (nodes : list string) (p : models.Pipeline) : models.Pipeline :=
  {| models.Id := models.Id p; models.Tasks := models.Tasks p; models.Nodes := nodes |}.

(** The calls of these handlers to the relational store, to etcd and to the
    log. *)
Inductive CtlCall : Type :=
| PipelineStore (p : models.Pipeline)
| PipelineUpdate (p : models.Pipeline)
| PipelineDestroy (p : models.Pipeline)
| CreateLog (p : models.Pipeline) (uid action : string)
| DeleteNodeRelations (pipelineId : string)
| InsertNodeRelations (relations : list nodepivot.PipelineNodePivot)
| GetPipeline (p : models.Pipeline)
| EtcdPut (key val : string)
| EtcdDelete (key : string)
| CtlPrintln (err : error).

(** A call, with what it returned. *)
Definition perform {R A : Type} (c : CtlCall) (answer : A) : Handler CtlCall R A :=
  fun log => (log ++ [c], inl answer).

(** [if err != nil { log.Println(err) }]. *)
Definition log_if {R : Type} (err : option error) : Handler CtlCall R unit :=
  match err with
  | Some e => perform (CtlPrintln e) tt
  | None => hret tt
  end.

(** The keys a handler wrote to etcd with their values, and the keys it
    addressed at all. *)
Definition etcd_put_of (c : CtlCall) : list (string * string) :=
  match c with
  | EtcdPut key val => [(key, val)]
  | _ => []
  end.

Definition etcd_puts (log : list CtlCall) : list (string * string) :=
  flat_map etcd_put_of log.

Definition etcd_key_of (c : CtlCall) : list string :=
  match c with
  | EtcdPut key _ | EtcdDelete key => [key]
  | _ => []
  end.

Definition etcd_keys (log : list CtlCall) : list string := flat_map etcd_key_of log.


(** ** Sample data for the concrete runs of the controller *)

Definition sample_tasks : list task.Task :=
  [ {| task.Id := "t1"; task.Name := "build" |};
    {| task.Id := "t2"; task.Name := "test" |};
    {| task.Id := "t3"; task.Name := "pack" |};
    {| task.Id := "t4"; task.Name := "ship" |} ].

Definition sample_relation (id taskId : string) (step : Z) : pivot.PipelineTaskPivot :=
  {| pivot.Id := id; pivot.PipelineId := "A"; pivot.TaskId := taskId;
     pivot.Step := step; pivot.Task := None |}.

(** The four tasks of pipeline [A], in step order. *)
Definition sample_relations : list pivot.PipelineTaskPivot :=
  [ sample_relation "r1" "t1" 1; sample_relation "r2" "t2" 2;
    sample_relation "r3" "t3" 3; sample_relation "r4" "t4" 4 ].

Definition sample_find_relations (pipelineId : string)
  : list pivot.PipelineTaskPivot * option error :=
  if String.eqb pipelineId "A" then (sample_relations, None) else ([], None).

Definition sample_find_tasks (ids : list string) : list task.Task * option error :=
  (filter (fun t => existsb (String.eqb (task.Id t)) ids) sample_tasks, None).

(** A store that accepts every write, and one that refuses the second. *)
Definition sample_update_ok (_ : nat) : option error := None.

Definition sample_update_second_refused (k : nat) : option error :=
  if Nat.eqb k 1 then Some "database is locked" else None.

Definition sample_validate_steps (_ : putsteps.PutStepsRequest)
  : option ValidationErrors := None.

(** A sort by step for the concrete runs: insertion sort. *)
Fixpoint sample_insert (p : pivot.PipelineTaskPivot) (l : list pivot.PipelineTaskPivot)
  : list pivot.PipelineTaskPivot :=
  match l with
  | [] => [p]
  | q :: rest =>
      if (pivot.Step p <=? pivot.Step q)%Z then p :: q :: rest
      else q :: sample_insert p rest
  end.

Fixpoint sample_sort (l : list pivot.PipelineTaskPivot) : list pivot.PipelineTaskPivot :=
  match l with
  | [] => []
  | p :: rest => sample_insert p (sample_sort rest)
  end.

Definition steps_request (origin current : Z) : putsteps.PutStepsRequest :=
  {| putsteps.PipelineId := "A"; putsteps.Origin := origin; putsteps.Current := current |}.

Definition sample_validate_pipeline (p : models.Pipeline) : option ValidationErrors :=
  None.

Definition sample_validate_bind (params : bindnode.BindNodeRequest)
  : option ValidationErrors :=
  if String.eqb (bindnode.PipelineId params) "" then Some "pipeline_id is required"
  else None.

Fixpoint strings_eqb (a b : list string) : bool :=
  match a, b with
  | [], [] => true
  | x :: a', y :: b' => String.eqb x y && strings_eqb a' b'
  | _, _ => false
  end.

Definition pipeline_eqb (p q : models.Pipeline) : bool :=
  String.eqb (models.Id p) (models.Id q)
  && strings_eqb (models.Tasks p) (models.Tasks q)
  && strings_eqb (models.Nodes p) (models.Nodes q).

(** An encoder for the concrete runs, the converse of the sample decoder on
    the documents that decode without error. *)
Fixpoint sample_encoding (p : models.Pipeline)
  (table : list (string * (models.Pipeline * option error))) : option string :=
  match table with
  | [] => None
  | (doc, (q, None)) :: rest =>
      if pipeline_eqb p q then Some doc else sample_encoding p rest
  | _ :: rest => sample_encoding p rest
  end.

Definition sample_Marshal (p : models.Pipeline) : string * option error :=
  match sample_encoding p sample_table with
  | Some doc => (doc, None)
  | None => ("", Some "json: unsupported value")
  end.

(** What the watch of the scenario delivers on node [n1]: [B] is rebound to
    [n1] and [n2], then [A] is deleted. *)
Definition sample_batches : list clientv3.WatchResponse :=
  [ {| clientv3.Events :=
         [ {| mvccpb.Type_ := mvccpb.PUT;
              mvccpb.Kv := kv "/ects/pipelines/B" "enc(B')";
              mvccpb.PrevKv := Some (kv "/ects/pipelines/B" "enc(B)") |} ] |};
    {| clientv3.Events :=
         [ {| mvccpb.Type_ := mvccpb.DELETE;
              mvccpb.Kv := kv "/ects/pipelines/A" "";
              mvccpb.PrevKv := Some (kv "/ects/pipelines/A" "enc(A)") |} ] |} ].

Definition sample_put (key doc : string) : mvccpb.Event :=
  {| mvccpb.Type_ := mvccpb.PUT; mvccpb.Kv := kv key doc; mvccpb.PrevKv := None |}.

(** A relation without its step. *)
Definition erase_Step (p : pivot.PipelineTaskPivot) : pivot.PipelineTaskPivot :=
  pivot.with_Step 0 p.

Section Ects.

(** [config.Conf.Etcd], and [json.Unmarshal] at the type [*models.Pipeline]:
    from the bytes and the destination's current value to the destination's
    new value and the error. *)
Variable Conf : config.Etcd.
Variable json_Unmarshal : string -> models.Pipeline -> models.Pipeline * option error.

(** The idiom of every decoding site:
    [var pipeline models.Pipeline;
     if err := json.Unmarshal(data, &pipeline); err != nil { log.Println(err) }].
    Nothing follows the log call inside the [if]: control falls through. *)
Definition unmarshal_logged (data : string) : Run models.Pipeline :=
  let (pipeline, err) := json_Unmarshal data models.zero in
  match err with
  | Some e => call (LogPrintln e)
  | None => ret tt
  end ;;
  ret pipeline.

(** The pipeline the code works with after decoding [data]. *)
Definition decoded (data : string) : models.Pipeline :=
  fst (json_Unmarshal data models.zero).

(** What a decoding site writes to the log: the error, when there is one. *)
Definition decode_log (data : string) : list Call :=
  match snd (json_Unmarshal data models.zero) with
  | Some e => [LogPrintln e]
  | None => []
  end.

(** *** WatchPipelines *)

(** Body of the loop over [rangeResp.Kvs]. *)
Definition snapshot_entry (obj : mvccpb.KeyValue) : Run unit :=
  pipeline <- unmarshal_logged (mvccpb.Value obj) ;;
  call (PushEvent {| Type_ := PUT; Pipeline := pipeline |}).

Definition snapshot_phase (kvs : list mvccpb.KeyValue) : Run unit :=
  range kvs snapshot_entry.

(** Body of the loop over [pipeline.Nodes] of a put-type change. *)
Definition push_if_local (local : string) (pipeline : models.Pipeline)
  (node : string) : Run unit :=
  if String.eqb node local
  then call (PushEvent {| Type_ := PUT; Pipeline := pipeline |})
  else ret tt.

(** Body of the loop over [watchResp.Events]: the [switch event.Type]. *)
Definition on_event (local : string) (event : mvccpb.Event) : Run unit :=
  match mvccpb.Type_ event with
  | mvccpb.PUT =>
      pipeline <- unmarshal_logged (mvccpb.Value (mvccpb.Kv event)) ;;
      range (models.Nodes pipeline) (push_if_local local pipeline)
  | mvccpb.DELETE =>
      prev <- deref (mvccpb.PrevKv event) ;;
      pipeline <- unmarshal_logged (mvccpb.Value prev) ;;
      call (PushEvent {| Type_ := DEL; Pipeline := pipeline |})
  end.

(** Body of the loop over [watchChan]: one notification, then the pause. *)
Definition on_batch (local : string) (watchResp : clientv3.WatchResponse) : Run unit :=
  range (clientv3.Events watchResp) (on_event local) ;;
  call (TimeSleep 1).

Definition streaming_phase (local : string)
  (watchChan : list clientv3.WatchResponse) : Run unit :=
  range watchChan (on_batch local).

(** [WatchPipelines(local)].  [got] is what the one [Get] returns and
    [watchChan] what the watch channel delivers before it is closed. *)
Definition WatchPipelines (local : string) (got : clientv3.GetResult)
  (watchChan : list clientv3.WatchResponse) : Run unit :=
  call (ClientGet (config.Pipeline Conf) [clientv3.WithPrefix]) ;;
  match snd got with
  | Some err => panic (PanicErr err)
  | None =>
      rangeResp <- deref (fst got) ;;
      let curRevision := add64 (clientv3.Revision (clientv3.Header rangeResp)) 1 in
      snapshot_phase (clientv3.Kvs rangeResp) ;;
      call (ClientWatch (config.Pipeline Conf)
              [clientv3.WithPrefix; clientv3.WithRev curRevision; clientv3.WithPrevKV]) ;;
      streaming_phase local watchChan
  end.

(** *** WatchKiller *)

(** The [for { ... }] loop around the snapshot read.  [gets i] is what the
    [i]-th [Get] of the run returns; [attempt] counts the reads made so far.
    An error sends the loop round again ([continue]); the loop has no other
    exit than a read without error. *)
Fixpoint killer_bootstrap (fuel : nat) (gets : nat -> clientv3.GetResult)
  (attempt : nat) : Run Z :=
  match fuel with
  | O => ([], StillLooping)
  | S fuel' =>
      call (ClientGet (config.Pipeline Conf) [clientv3.WithPrefix]) ;;
      match snd (gets attempt) with
      | Some _ => killer_bootstrap fuel' gets (S attempt)
      | None =>
          rangeResp <- deref (fst (gets attempt)) ;;
          ret (add64 (clientv3.Revision (clientv3.Header rangeResp)) 1)
      end
  end.

Definition registered_format : string := "节点：%s 注册成功".
Definition offline_format : string := "Pipeline：%s 离线".

(** Body of the loop over [watchResp.Events].  Both branches of the switch
    hold a TODO comment and one [log.Printf]. *)
Definition killer_event (event : mvccpb.Event) : Run unit :=
  pipeline <- unmarshal_logged (mvccpb.Value (mvccpb.Kv event)) ;;
  match mvccpb.Type_ event with
  | mvccpb.PUT => call (LogPrintf registered_format (models.Id pipeline))
  | mvccpb.DELETE => call (LogPrintf offline_format (models.Id pipeline))
  end.

Definition killer_batch (watchResp : clientv3.WatchResponse) : Run unit :=
  range (clientv3.Events watchResp) killer_event.

(** [WatchKiller()]. *)
Definition WatchKiller (fuel : nat) (gets : nat -> clientv3.GetResult)
  (watchChan : list clientv3.WatchResponse) : Run unit :=
  curRevision <- killer_bootstrap fuel gets 0 ;;
  call (ClientWatch "" [clientv3.WithPrefix; clientv3.WithRev curRevision]) ;;
  range watchChan killer_batch.

(** The record the spec has the kill-signal watcher act on: the value of a
    put-type change, the previous value of a deletion.  This definition
    follows the spec's words, for comparison with [killer_event]. *)
Definition spec_killer_record (event : mvccpb.Event) : option models.Pipeline :=
  match mvccpb.Type_ event with
  | mvccpb.PUT => Some (decoded (mvccpb.Value (mvccpb.Kv event)))
  | mvccpb.DELETE => option_map (fun prev => decoded (mvccpb.Value prev)) (mvccpb.PrevKv event)
  end.

(** The Local Registry of the spec: identifiers marked active, upserted on a
    put-type change and removed on a delete-type change.  This definition
    follows the spec's words; the code has no counterpart. *)
Definition spec_registry_step (registry : list string) (event : mvccpb.Event)
  : list string :=
  match spec_killer_record event with
  | None => registry
  | Some p =>
      let others := filter (fun id => negb (String.eqb id (models.Id p))) registry in
      match mvccpb.Type_ event with
      | mvccpb.PUT => models.Id p :: others
      | mvccpb.DELETE => others
      end
  end.

(** *** PostKiller *)

(** [validate.Struct] on a [KillPipelineRequest] (tag [required,uuid4]) and
    [message.Get("pipeline", _)]. *)
Variable validate_Struct : KillPipelineRequest -> option ValidationErrors.
Variable message_Get : string -> ValidationErrors -> string.

(** [PostKiller(ctx)].  [read] is what [ctx.ReadJSON(&params)] leaves in
    [params] and returns; [granted] and [put] are what [Grant] and [Put]
    return.  The argument [clientv3.WithLease(res.ID)] is evaluated before
    [Put] is called. *)
Definition PostKiller (read : KillPipelineRequest * option error)
  (granted : clientv3.GrantResult) (put : option error) : Run Response :=
  let (params, readErr) := read in
  match readErr with
  | Some err => ret (InternalServerError "Failed to Unmarshal JSON" err)
  | None =>
      match validate_Struct params with
      | Some validationErrors =>
          ret (ValidationError (message_Get "pipeline" validationErrors))
      | None =>
          call (ClientGrant 2) ;;
          match snd granted with
          | Some err => call (LogPrintln err)
          | None => ret tt
          end ;;
          let key := (config.Killer Conf ++ "/" ++ PipelineId params)%string in
          res <- deref (fst granted) ;;
          call (ClientPut key "pipeline" [clientv3.WithLease (clientv3.ID res)]) ;;
          match put with
          | Some err => call (LogPrintln err)
          | None => ret tt
          end ;;
          ret (Success "" [])
      end
  end.

(** *** PutSteps and GetTasks *)

Local Open Scope handler_scope.

(** The collaborators of the two handlers: [validate.Struct] on a
    [PutStepsRequest]; the query of a pipeline's relations in ascending step
    order; what the [k]-th call of [Update] returns; the query of the tasks
    with the given identifiers; and [sort.Slice] with the comparison of
    steps. *)
Variable validate_PutSteps : putsteps.PutStepsRequest -> option ValidationErrors.
Variable find_relations : string -> list pivot.PipelineTaskPivot * option error.
Variable update_err : nat -> option error.
Variable find_tasks : list string -> list task.Task * option error.
Variable sort_Slice : list pivot.PipelineTaskPivot -> list pivot.PipelineTaskPivot.

Definition StepsResponse : Type := response.Response (list pivot.PipelineTaskPivot).

(** A step of PutSteps: the calls are the rows handed to [Update]. *)
Definition StepsHandler (A : Type) : Type :=
  Handler pivot.PipelineTaskPivot StepsResponse A.

(** [p.Update()]: the row is written, and the store answers.  The method
    belongs to the package [models]; it is taken to leave the fields of the
    relation as they are. *)
Definition Update (p : pivot.PipelineTaskPivot) : StepsHandler (option error) :=
  fun log => (log ++ [p], inl (update_err (List.length log))).

(** [relations[index].Step += delta] and the [Update] that follows it. *)
Definition shift_step (delta : Z) (relations : list pivot.PipelineTaskPivot)
  (index : Z) : StepsHandler (list pivot.PipelineTaskPivot) :=
  p <- at_index relations index ;;
  let p' := pivot.with_Step (add64 (pivot.Step p) delta) p in
  err <- Update p' ;;
  match err with
  | Some e => hreturn (response.InternalServerError "排序失败" e)
  | None => hret (set_nth (Z.to_nat index) p' relations)
  end.

(** [for index := 0; index <= count; index++ { if guard { shift } }], from
    [index] on, with [iterations] rounds to go. *)
Fixpoint for_index (guard : Z -> bool) (delta : Z) (iterations : nat) (index : Z)
  (relations : list pivot.PipelineTaskPivot)
  : StepsHandler (list pivot.PipelineTaskPivot) :=
  match iterations with
  | O => hret relations
  | S rounds =>
      relations' <- (if guard index then shift_step delta relations index
                     else hret relations) ;;
      for_index guard delta rounds (index + 1) relations'
  end.

(** The inner loop over [tasks] for one relation: every task with the
    relation's [TaskId] is attached in turn, so the last one stays. *)
Definition attach_task (tasks : list task.Task) (relation : pivot.PipelineTaskPivot)
  : pivot.PipelineTaskPivot :=
  fold_left
    (fun r t => if String.eqb (pivot.TaskId relation) (task.Id t)
                then pivot.with_Task (Some t) r else r)
    tasks relation.

Definition attach (tasks : list task.Task) (relations : list pivot.PipelineTaskPivot)
  : list pivot.PipelineTaskPivot :=
  map (attach_task tasks) relations.

(** The end of PutSteps and of GetTasks: the tasks of the relations are
    queried and attached. *)
Definition respond_with_tasks {C A : Type} (relations : list pivot.PipelineTaskPivot)
  : Handler C StepsResponse A :=
  let (tasks, tasksErr) := find_tasks (map pivot.TaskId relations) in
  match tasksErr with
  | Some err => hreturn (response.InternalServerError "Failed to query relations" err)
  | None => hreturn (response.Success "Successful" (attach tasks relations))
  end.

(** The three loops of PutSteps: the steps of the relations between the two
    positions are shifted. *)
Definition shift_between (params : putsteps.PutStepsRequest)
  (found : list pivot.PipelineTaskPivot)
  : StepsHandler (list pivot.PipelineTaskPivot) :=
  let count := List.length found in
  let origin := putsteps.Origin params in
  let current := putsteps.Current params in
  relations <-
    (if (current =? 0)%Z && (origin >? 0)%Z
     then for_index (fun index => (index <? origin)%Z) 1 (S count) 0 found
     else hret found) ;;
  relations <-
    (if (current >? origin)%Z
     then for_index (fun index => (index >? origin)%Z && (index <=? current)%Z)
                    (-1) (S count) 0 relations
     else hret relations) ;;
  if negb (current =? 0)%Z && (current <? origin)%Z
  then for_index (fun index => (index >=? current)%Z && (index <? origin)%Z)
                 1 (S count) 0 relations
  else hret relations.

(** The end of PutSteps: the relation at [Origin] gets the step
    [Current + 1] and is written, and the relations are sorted by step and
    answered with their tasks. *)
Definition place (params : putsteps.PutStepsRequest)
  (relations : list pivot.PipelineTaskPivot) : StepsHandler StepsResponse :=
  moved <- at_index relations (putsteps.Origin params) ;;
  let moved' := pivot.with_Step (add64 (putsteps.Current params) 1) moved in
  err <- Update moved' ;;
  match err with
  | Some e => hreturn (response.InternalServerError "排序失败" e)
  | None =>
      respond_with_tasks
        (sort_Slice (set_nth (Z.to_nat (putsteps.Origin params)) moved' relations))
  end.

(** PutSteps once the relations are read. *)
Definition reorder (params : putsteps.PutStepsRequest)
  (found : list pivot.PipelineTaskPivot) : StepsHandler StepsResponse :=
  relations <- shift_between params found ;;
  place params relations.

(** [PutSteps(ctx)], given what [ctx.ReadJSON(&params)] leaves and returns:
    the rows handed to [Update], in order, and the way the handler left. *)
Definition PutSteps (read : putsteps.PutStepsRequest * option error)
  : list pivot.PipelineTaskPivot * Exit StepsResponse :=
  handle
    (let (params, readErr) := read in
     match readErr with
     | Some err => hreturn (response.InternalServerError "Failed to Unmarshal JSON" err)
     | None =>
         match validate_PutSteps params with
         | Some errs => hreturn (response.ValidationError (message_Get "pipeline" errs))
         | None =>
             let (found, findErr) := find_relations (putsteps.PipelineId params) in
             match findErr with
             | Some err =>
                 hreturn (response.InternalServerError "Failed to query relations" err)
             | None => reorder params found
             end
         end
     end).

(** [GetTasks(ctx)], given the URL parameter [pipeline_id]. *)
Definition GetTasks (id : string) : StepsResponse :=
  if String.eqb id "" then response.ValidationError "pipeline id is required"
  else
    let (relations, findErr) := find_relations id in
    match findErr with
    | Some err => response.InternalServerError "Failed to query relations" err
    | None =>
        let (tasks, tasksErr) := find_tasks (map pivot.TaskId relations) in
        match tasksErr with
        | Some err => response.InternalServerError "Failed to query relations" err
        | None => response.Success "Successful" (attach tasks relations)
        end
    end.

(** *** Post, PutBy, DeleteBy and PostNodes *)

(** [validate.Struct] on a pipeline and on a [BindNodeRequest], and
    [json.Marshal] of a pipeline: the bytes and the error.  The methods
    [Store], [Update] and [Destroy] of a pipeline belong to the package
    [models]; they are calls with an answer, taken to leave the fields of
    the pipeline as they are. *)
Variable validate_Pipeline : models.Pipeline -> option ValidationErrors.
Variable validate_BindNode : bindnode.BindNodeRequest -> option ValidationErrors.
Variable json_Marshal : models.Pipeline -> string * option error.

(** The key of a pipeline in etcd:
    [fmt.Sprintf("%s/%s", config.Conf.Etcd.Pipeline, pipeline.Id)]. *)
Definition pipeline_key (id : string) : string :=
  (config.Pipeline Conf ++ "/" ++ id)%string.

(** [Post(ctx)].  [read] is what [ctx.ReadJSON(&pipeline)] leaves and
    returns, [uuid] the identifier drawn by [uuid.NewV4()], [uid] the user of
    the request; [stored], [put] and [logged] are what [pipeline.Store()],
    [Client.Put] and [models.CreateLog] return. *)
Definition Post (read : models.Pipeline * option error) (uuid uid : string)
  (stored put logged : option error)
  : list CtlCall * Exit (response.Response models.Pipeline) :=
  handle
    (let (pipeline, readErr) := read in
     match readErr with
     | Some err => hreturn (response.InternalServerError "Failed to Unmarshal JSON" err)
     | None =>
         match validate_Pipeline pipeline with
         | Some errs => hreturn (response.ValidationError (message_Get "pipeline" errs))
         | None =>
             let pipeline := with_Id uuid pipeline in
             err <- perform (PipelineStore pipeline) stored ;;
             match err with
             | Some e =>
                 hreturn (response.InternalServerError "Failed to create pipeline" e)
             | None =>
                 let key := pipeline_key (models.Id pipeline) in
                 let (bytes, marshalErr) := json_Marshal pipeline in
                 _ <- log_if marshalErr ;;
                 err <- perform (EtcdPut key bytes) put ;;
                 _ <- log_if err ;;
                 err <- perform (CreateLog pipeline uid "CREATE PIPELINE") logged ;;
                 match err with
                 | Some e =>
                     hreturn (response.InternalServerError "Failed to create log" e)
                 | None =>
                     hreturn (response.Success "Created successfully" pipeline)
                 end
             end
         end
     end).

(** [PutBy(id, ctx)]; [updated] and [put] are what [pipeline.Update()] and
    [Client.Put] return. *)
Definition PutBy (id : string) (read : models.Pipeline * option error)
  (updated put : option error)
  : list CtlCall * Exit (response.Response models.Pipeline) :=
  handle
    (let (pipeline, readErr) := read in
     match readErr with
     | Some err => hreturn (response.InternalServerError "Failed to Unmarshal JSON" err)
     | None =>
         match validate_Pipeline pipeline with
         | Some errs => hreturn (response.ValidationError (message_Get "pipeline" errs))
         | None =>
             let pipeline := with_Id id pipeline in
             err <- perform (PipelineUpdate pipeline) updated ;;
             match err with
             | Some e =>
                 hreturn (response.InternalServerError "Failed to update pipeline" e)
             | None =>
                 let key := pipeline_key (models.Id pipeline) in
                 let (bytes, marshalErr) := json_Marshal pipeline in
                 _ <- log_if marshalErr ;;
                 err <- perform (EtcdPut key bytes) put ;;
                 match err with
                 | Some e =>
                     hreturn (response.InternalServerError "Failed to delete pipeline" e)
                 | None =>
                     hreturn (response.Success "Updated successfully" pipeline)
                 end
             end
         end
     end).

(** [DeleteBy(id, ctx)]; [deleted] and [destroyed] are what [Client.Delete]
    and [pipeline.Destroy()] return.  The answer's data is an empty map. *)
Definition DeleteBy (id : string) (deleted destroyed : option error)
  : list CtlCall * Exit (response.Response unit) :=
  handle
    (let pipeline := with_Id id models.zero in
     let key := pipeline_key (models.Id pipeline) in
     err <- perform (EtcdDelete key) deleted ;;
     match err with
     | Some e => hreturn (response.InternalServerError "Failed to delete pipeline" e)
     | None =>
         err <- perform (PipelineDestroy pipeline) destroyed ;;
         match err with
         | Some e => hreturn (response.InternalServerError "Failed to delete pipeline" e)
         | None => hreturn (response.Success "Deleted successfully" tt)
         end
     end).

(** [PostNodes(ctx)]; [removed] and [inserted] are what the deletion of the
    pipeline's old relations and the insertion of the new ones return, [got]
    is the pipeline [models.Engine.Get] leaves and the error it returns, and
    [put] is what [Client.Put] returns. *)
Definition PostNodes (read : bindnode.BindNodeRequest * option error)
  (removed inserted : option error) (got : models.Pipeline * option error)
  (put : option error)
  : list CtlCall * Exit (response.Response (list nodepivot.PipelineNodePivot)) :=
  handle
    (let (params, readErr) := read in
     match readErr with
     | Some err => hreturn (response.InternalServerError "Failed to Unmarshal JSON" err)
     | None =>
         match validate_BindNode params with
         | Some errs => hreturn (response.ValidationError (message_Get "pipeline" errs))
         | None =>
             err <- perform (DeleteNodeRelations (bindnode.PipelineId params)) removed ;;
             match err with
             | Some e =>
                 hreturn (response.InternalServerError
                            "Failed to delete pipeline and node relations" e)
             | None =>
                 let relations :=
                   map (fun id => {| nodepivot.PipelineId := bindnode.PipelineId params;
                                     nodepivot.NodeId := id |})
                       (bindnode.NodesId params) in
                 err <- perform (InsertNodeRelations relations) inserted ;;
                 match err with
                 | Some e =>
                     hreturn (response.InternalServerError
                                "Failed to bind pipeline to node" e)
                 | None =>
                     gotErr <- perform
                                 (GetPipeline (with_Id (bindnode.PipelineId params)
                                                       models.zero))
                                 (snd got) ;;
                     match gotErr with
                     | Some e =>
                         hreturn (response.InternalServerError
                                    "Failed to bind pipeline to node" e)
                     | None =>
                         let pipeline := with_Nodes (bindnode.NodesId params) (fst got) in
                         let (bytes, marshalErr) := json_Marshal pipeline in
                         _ <- log_if marshalErr ;;
                         let key := pipeline_key (models.Id pipeline) in
                         err <- perform (EtcdPut key bytes) put ;;
                         _ <- log_if err ;;
                         hreturn (response.Success "Bind successfully" relations)
                     end
                 end
             end
         end
     end).

(** The store accepted every write of the log, or every one but the
    last. *)
Definition all_accepted (log : list pivot.PipelineTaskPivot) : Prop :=
  forall k, k < List.length log -> update_err k = None.

Definition accepted_but_last (log : list pivot.PipelineTaskPivot) : Prop :=
  forall k, S k < List.length log -> update_err k = None.

(** A step that never writes again after a refused write, and that leaves
    with success only when every write was accepted. *)
Definition careful {A : Type} (h : StepsHandler A) : Prop :=
  forall log,
    all_accepted log ->
    match snd (h log) with
    | inl _ => all_accepted (fst (h log))
    | inr e =>
        accepted_but_last (fst (h log)) /\
        (is_success e = true -> all_accepted (fst (h log)))
    end.

(** A step that keeps the number of relations, or fails the reordering. *)
Definition keeps_length (n : nat) (h : StepsHandler (list pivot.PipelineTaskPivot))
  : Prop :=
  forall log,
    match snd (h log) with
    | inl relations => List.length relations = n
    | inr e => reorder_failed e = true
    end.

Local Close Scope handler_scope.

(** ** Runs and traces: general facts *)

Lemma bind_done {A B : Type} (m : Run A) (k : A -> Run B) (t : list Call) (a : A) :
  m = (t, Done a) -> bind m k = (t ++ fst (k a), snd (k a)).
Proof. intros ->. reflexivity. Qed.

Lemma bind_call {B : Type} (c : Call) (k : unit -> Run B) :
  bind (call c) k = (c :: fst (k tt), snd (k tt)).
Proof. reflexivity. Qed.

Lemma range_cons {A : Type} (x : A) (xs : list A) (body : A -> Run unit) :
  range (x :: xs) body = bind (body x) (fun _ => range xs body).
Proof. reflexivity. Qed.

(** A loop whose body always returns runs the body on every element, in
    order, and returns. *)
Lemma range_total {A : Type} (body : A -> Run unit) (xs : list A) :
  (forall x, snd (body x) = Done tt) ->
  range xs body = (flat_map (fun x => fst (body x)) xs, Done tt).
Proof.
  intros Hbody. induction xs as [|x xs IH].
  - reflexivity.
  - rewrite range_cons.
    rewrite (bind_done (body x) _ (fst (body x)) tt).
    + rewrite IH. reflexivity.
    + rewrite <- (Hbody x). apply surjective_pairing.
Qed.

Lemma pushed_app (t u : list Call) : pushed (t ++ u) = pushed t ++ pushed u.
Proof. unfold pushed. apply flat_map_app. Qed.

Lemma watches_app (t u : list Call) : watches (t ++ u) = watches t ++ watches u.
Proof. unfold watches. apply filter_app. Qed.

(** Filtering the trace of a sequence: the second part counts only when the
    first returned. *)
Lemma filter_bind_nil {A B : Type} (f : Call -> bool) (m : Run A) (k : A -> Run B) :
  filter f (fst m) = [] ->
  (forall a, filter f (fst (k a)) = []) ->
  filter f (fst (bind m k)) = [].
Proof.
  intros Hm Hk. destruct m as [t [a | v | ]]; simpl in *; try assumption.
  rewrite filter_app, Hm, Hk. reflexivity.
Qed.

Lemma filter_range_nil {A : Type} (f : Call -> bool) (body : A -> Run unit) (xs : list A) :
  (forall x, filter f (fst (body x)) = []) ->
  filter f (fst (range xs body)) = [].
Proof.
  intros Hbody. induction xs as [|x xs IH].
  - reflexivity.
  - rewrite range_cons. apply filter_bind_nil; [apply Hbody | intros _; exact IH].
Qed.

(** ** Decoding *)

Lemma unmarshal_logged_run (data : string) :
  unmarshal_logged data = (decode_log data, Done (decoded data)).
Proof.
  unfold unmarshal_logged, decode_log, decoded.
  destruct (json_Unmarshal data models.zero) as [p [e|]]; reflexivity.
Qed.

Lemma pushed_decode_log (data : string) : pushed (decode_log data) = [].
Proof. unfold decode_log. destruct (snd _); reflexivity. Qed.

Lemma filter_decode_log (f : Call -> bool) (data : string) :
  (forall e, f (LogPrintln e) = false) -> filter f (decode_log data) = [].
Proof.
  intros Hf. unfold decode_log. destruct (snd _); simpl; [rewrite Hf|]; reflexivity.
Qed.

(** ** The snapshot phase of WatchPipelines *)

Lemma snapshot_entry_run (obj : mvccpb.KeyValue) :
  snapshot_entry obj =
    (decode_log (mvccpb.Value obj) ++
       [PushEvent {| Type_ := PUT; Pipeline := decoded (mvccpb.Value obj) |}],
     Done tt).
Proof.
  unfold snapshot_entry.
  rewrite (bind_done _ _ _ _ (unmarshal_logged_run _)). reflexivity.
Qed.

Lemma snapshot_phase_run (kvs : list mvccpb.KeyValue) :
  snapshot_phase kvs = (flat_map (fun obj => fst (snapshot_entry obj)) kvs, Done tt).
Proof.
  unfold snapshot_phase. apply range_total.
  intros obj. rewrite snapshot_entry_run. reflexivity.
Qed.

Lemma snapshot_phase_pushed (kvs : list mvccpb.KeyValue) :
  pushed (fst (snapshot_phase kvs)) =
    map (fun obj => {| Type_ := PUT; Pipeline := decoded (mvccpb.Value obj) |}) kvs.
Proof.
  rewrite snapshot_phase_run. simpl.
  induction kvs as [|obj kvs IH].
  - reflexivity.
  - simpl. rewrite pushed_app, IH, snapshot_entry_run. simpl.
    rewrite pushed_app, pushed_decode_log. reflexivity.
Qed.

(** A run of WatchPipelines whose snapshot read succeeds: the read, the
    snapshot loop, the watch, the streaming loop. *)
Lemma WatchPipelines_ok (local : string) (rangeResp : clientv3.GetResponse)
  (watchChan : list clientv3.WatchResponse) :
  WatchPipelines local (Some rangeResp, None) watchChan =
    (ClientGet (config.Pipeline Conf) [clientv3.WithPrefix]
       :: fst (snapshot_phase (clientv3.Kvs rangeResp))
       ++ ClientWatch (config.Pipeline Conf)
            [clientv3.WithPrefix;
             clientv3.WithRev (add64 (clientv3.Revision (clientv3.Header rangeResp)) 1);
             clientv3.WithPrevKV]
       :: fst (streaming_phase local watchChan),
     snd (streaming_phase local watchChan)).
Proof.
  unfold WatchPipelines. rewrite bind_call. simpl.
  rewrite (bind_done _ _ _ _ (snapshot_phase_run _)).
  rewrite snapshot_phase_run. reflexivity.
Qed.

(** C1.  Snapshot phase of WatchPipelines: the loop over the keys of the
    prefix read always runs to its end, and the events it pushes are one PUT
    event per key, in the order of the keys, each carrying what decoding the
    key's value left in [pipeline].  Neither the local node identifier nor
    the pipeline's [Nodes] list plays a part, so a pipeline with no node is
    pushed like any other.  These are the calls WatchPipelines makes between
    its read and its watch. *)
Theorem C1_snapshot_one_PUT_per_key :
  forall (local : string) (rangeResp : clientv3.GetResponse)
         (watchChan : list clientv3.WatchResponse),
    snd (snapshot_phase (clientv3.Kvs rangeResp)) = Done tt /\
    pushed (fst (snapshot_phase (clientv3.Kvs rangeResp))) =
      map (fun obj => {| Type_ := PUT; Pipeline := decoded (mvccpb.Value obj) |})
          (clientv3.Kvs rangeResp) /\
    List.length (pushed (fst (snapshot_phase (clientv3.Kvs rangeResp)))) =
      List.length (clientv3.Kvs rangeResp) /\
    exists (opts : list clientv3.OpOption) (rest : list Call),
      fst (WatchPipelines local (Some rangeResp, None) watchChan) =
        ClientGet (config.Pipeline Conf) [clientv3.WithPrefix]
          :: fst (snapshot_phase (clientv3.Kvs rangeResp))
          ++ ClientWatch (config.Pipeline Conf) opts :: rest.
Proof.
  intros local rangeResp watchChan.
  split; [rewrite snapshot_phase_run; reflexivity|].
  split; [apply snapshot_phase_pushed|].
  split; [rewrite snapshot_phase_pushed; apply length_map|].
  eexists; eexists. rewrite WatchPipelines_ok. reflexivity.
Qed.

(** ** The streaming phase of WatchPipelines *)

Lemma add64_succ (r : Z) :
  (int64_min <= r < int64_max)%Z -> add64 r 1 = (r + 1)%Z.
Proof.
  unfold int64_min, int64_max, add64, wrap64. intros Hr.
  rewrite Z.mod_small by lia. lia.
Qed.

Lemma range_step {A : Type} (body : A -> Run unit) (x : A) (xs : list A) (t : list Call) :
  body x = (t, Done tt) ->
  range (x :: xs) body = (t ++ fst (range xs body), snd (range xs body)).
Proof. intros Hx. rewrite range_cons, Hx. reflexivity. Qed.

(** The loop over the nodes pushes once for every element equal to the
    local identifier. *)
Lemma push_if_local_range (local : string) (p : models.Pipeline) (nodes : list string) :
  range nodes (push_if_local local p) =
    (repeat (PushEvent {| Type_ := PUT; Pipeline := p |}) (count_occ string_dec nodes local),
     Done tt).
Proof.
  induction nodes as [|node nodes IH].
  - reflexivity.
  - assert (Hnode : push_if_local local p node =
              (if string_dec node local
               then [PushEvent {| Type_ := PUT; Pipeline := p |}] else [], Done tt)).
    { unfold push_if_local.
      destruct (String.eqb_spec node local) as [Heq | Hne];
        destruct (string_dec node local) as [Heq' | Hne']; try reflexivity; contradiction. }
    rewrite (range_step _ _ _ _ Hnode), IH. simpl.
    destruct (string_dec node local); reflexivity.
Qed.

Lemma on_event_put (local : string) (k prev : _) :
  on_event local {| mvccpb.Type_ := mvccpb.PUT; mvccpb.Kv := k; mvccpb.PrevKv := prev |} =
    (decode_log (mvccpb.Value k) ++
       repeat (PushEvent {| Type_ := PUT; Pipeline := decoded (mvccpb.Value k) |})
              (count_occ string_dec (models.Nodes (decoded (mvccpb.Value k))) local),
     Done tt).
Proof.
  unfold on_event. simpl.
  rewrite (bind_done _ _ _ _ (unmarshal_logged_run _)).
  rewrite push_if_local_range. reflexivity.
Qed.

Lemma on_event_delete (local : string) (k prev : mvccpb.KeyValue) :
  on_event local
    {| mvccpb.Type_ := mvccpb.DELETE; mvccpb.Kv := k; mvccpb.PrevKv := Some prev |} =
    (decode_log (mvccpb.Value prev) ++
       [PushEvent {| Type_ := DEL; Pipeline := decoded (mvccpb.Value prev) |}],
     Done tt).
Proof.
  unfold on_event. simpl.
  rewrite (bind_done _ _ _ _ (unmarshal_logged_run _)). reflexivity.
Qed.

(** A deletion delivered without its previous value: [event.PrevKv.Value]
    reads through a nil pointer. *)
Lemma on_event_delete_nil (local : string) (k : mvccpb.KeyValue) :
  on_event local
    {| mvccpb.Type_ := mvccpb.DELETE; mvccpb.Kv := k; mvccpb.PrevKv := None |} =
    ([], Panicked NilDereference).
Proof. reflexivity. Qed.

Lemma pushed_repeat (e : Event) (n : nat) :
  pushed (repeat (PushEvent e) n) = repeat e n.
Proof. induction n as [|n IH]; simpl; [|rewrite <- IH]; reflexivity. Qed.

Lemma watches_snapshot_phase (kvs : list mvccpb.KeyValue) :
  watches (fst (snapshot_phase kvs)) = [].
Proof.
  unfold watches, snapshot_phase. apply filter_range_nil. intros obj.
  rewrite snapshot_entry_run. simpl.
  rewrite filter_app, filter_decode_log by reflexivity. reflexivity.
Qed.

Lemma watches_on_event (local : string) (event : mvccpb.Event) :
  watches (fst (on_event local event)) = [].
Proof.
  unfold watches. destruct event as [[|] k [prev|]].
  1,2: rewrite on_event_put; simpl;
       rewrite filter_app, filter_decode_log by reflexivity; simpl;
       induction (count_occ _ _ _); simpl; auto.
  - rewrite on_event_delete. simpl.
    rewrite filter_app, filter_decode_log by reflexivity. reflexivity.
  - reflexivity.
Qed.

Lemma watches_streaming_phase (local : string) (watchChan : list clientv3.WatchResponse) :
  watches (fst (streaming_phase local watchChan)) = [].
Proof.
  unfold watches, streaming_phase. apply filter_range_nil. intros watchResp.
  unfold on_batch. apply filter_bind_nil.
  - apply filter_range_nil. intros event. apply watches_on_event.
  - intros _. reflexivity.
Qed.

(** C2.  Streaming phase of WatchPipelines.  A put-type change whose decoded
    pipeline does not list the local node pushes no event; a delete-type
    change, delivered with its previous value, pushes exactly one DELETE
    event, which carries the pipeline decoded from that previous value,
    whatever the local node and the pipeline's nodes are.  Both are handled
    to the end (the loop goes on). *)
Theorem C2_put_filtered_delete_unfiltered :
  forall (local : string) (putKv deleteKv prev : mvccpb.KeyValue)
         (putPrev : option mvccpb.KeyValue),
    ~ In local (models.Nodes (decoded (mvccpb.Value putKv))) ->
    (pushed (fst (on_event local
       {| mvccpb.Type_ := mvccpb.PUT; mvccpb.Kv := putKv; mvccpb.PrevKv := putPrev |})) = []
     /\ snd (on_event local
       {| mvccpb.Type_ := mvccpb.PUT; mvccpb.Kv := putKv; mvccpb.PrevKv := putPrev |}) = Done tt)
    /\
    (pushed (fst (on_event local
       {| mvccpb.Type_ := mvccpb.DELETE; mvccpb.Kv := deleteKv; mvccpb.PrevKv := Some prev |})) =
       [ {| Type_ := DEL; Pipeline := decoded (mvccpb.Value prev) |} ]
     /\ snd (on_event local
       {| mvccpb.Type_ := mvccpb.DELETE; mvccpb.Kv := deleteKv; mvccpb.PrevKv := Some prev |})
         = Done tt).
Proof.
  intros local putKv deleteKv prev putPrev Hout.
  rewrite on_event_put, on_event_delete. simpl.
  rewrite !pushed_app, !pushed_decode_log, pushed_repeat.
  apply (count_occ_not_In string_dec) in Hout. rewrite Hout.
  repeat split.
Qed.

(** C3.  WatchPipelines opens one watch, after a successful snapshot read:
    on the pipeline prefix, from the revision of the read's response header
    plus one, and with previous values requested.  (The revision is an int64
    below its maximum, so the sum does not wrap.) *)
Theorem C3_watch_from_next_revision :
  forall (local : string) (rangeResp : clientv3.GetResponse)
         (watchChan : list clientv3.WatchResponse),
    (int64_min <= clientv3.Revision (clientv3.Header rangeResp) < int64_max)%Z ->
    watches (fst (WatchPipelines local (Some rangeResp, None) watchChan)) =
      [ ClientWatch (config.Pipeline Conf)
          [ clientv3.WithPrefix;
            clientv3.WithRev (clientv3.Revision (clientv3.Header rangeResp) + 1);
            clientv3.WithPrevKV ] ].
Proof.
  intros local rangeResp watchChan Hrev.
  rewrite WatchPipelines_ok. cbn [fst].
  change (ClientGet ?k ?o :: ?t) with ([ClientGet k o] ++ t).
  rewrite watches_app, watches_app, watches_snapshot_phase.
  change (ClientWatch ?k ?o :: ?t) with ([ClientWatch k o] ++ t).
  rewrite watches_app, watches_streaming_phase, add64_succ by exact Hrev.
  reflexivity.
Qed.

(** C10.  Streaming phase of WatchPipelines: a put-type change pushes one
    PUT event for every occurrence of the local node identifier in the
    decoded pipeline's [Nodes] list, so [k] occurrences give [k] events. *)
Theorem C10_put_pushes_once_per_occurrence :
  forall (local : string) (putKv : mvccpb.KeyValue) (putPrev : option mvccpb.KeyValue),
    pushed (fst (on_event local
      {| mvccpb.Type_ := mvccpb.PUT; mvccpb.Kv := putKv; mvccpb.PrevKv := putPrev |})) =
      repeat {| Type_ := PUT; Pipeline := decoded (mvccpb.Value putKv) |}
             (count_occ string_dec (models.Nodes (decoded (mvccpb.Value putKv))) local).
Proof.
  intros local putKv putPrev.
  rewrite on_event_put. simpl.
  rewrite pushed_app, pushed_decode_log, pushed_repeat. reflexivity.
Qed.

(** ** Decoding failures *)

(** C4.  A value that fails to decode is logged and is never fatal, and the
    loops go on; the entry is not skipped.  With [p] what the failed
    decoding left in [pipeline]: the snapshot loop logs the error, pushes a
    PUT event carrying [p] and continues with the remaining keys; a
    delete-type change logs the error and pushes a DELETE event carrying
    [p]; a put-type change logs the error and pushes a PUT event carrying
    [p] for every occurrence of the local node in [p]'s nodes; each returns
    normally, so its loop continues. *)
Theorem C4_decoding_failure_logged_not_skipped :
  forall (local key : string) (data : string) (p : models.Pipeline) (e : error)
         (rest : list mvccpb.KeyValue) (k : mvccpb.KeyValue)
         (putPrev : option mvccpb.KeyValue),
    json_Unmarshal data models.zero = (p, Some e) ->
    snapshot_phase ({| mvccpb.Key := key; mvccpb.Value := data |} :: rest) =
      (LogPrintln e :: PushEvent {| Type_ := PUT; Pipeline := p |}
         :: fst (snapshot_phase rest), Done tt)
    /\
    on_event local
      {| mvccpb.Type_ := mvccpb.DELETE; mvccpb.Kv := k;
         mvccpb.PrevKv := Some {| mvccpb.Key := key; mvccpb.Value := data |} |} =
      ([LogPrintln e; PushEvent {| Type_ := DEL; Pipeline := p |}], Done tt)
    /\
    on_event local
      {| mvccpb.Type_ := mvccpb.PUT;
         mvccpb.Kv := {| mvccpb.Key := key; mvccpb.Value := data |};
         mvccpb.PrevKv := putPrev |} =
      (LogPrintln e :: repeat (PushEvent {| Type_ := PUT; Pipeline := p |})
                         (count_occ string_dec (models.Nodes p) local), Done tt).
Proof.
  intros local key data p e rest k putPrev Hdec.
  assert (Hlog : decode_log data = [LogPrintln e])
    by (unfold decode_log; rewrite Hdec; reflexivity).
  assert (Hp : decoded data = p) by (unfold decoded; rewrite Hdec; reflexivity).
  repeat split.
  - unfold snapshot_phase at 1.
    rewrite (range_step _ _ _ _ (snapshot_entry_run _)). simpl.
    rewrite Hlog, Hp. fold (snapshot_phase rest).
    rewrite snapshot_phase_run. reflexivity.
  - rewrite on_event_delete. simpl. rewrite Hlog, Hp. reflexivity.
  - rewrite on_event_put. simpl. rewrite Hlog, Hp. reflexivity.
Qed.

(** ** WatchKiller *)

Lemma killer_bootstrap_retries (gets : nat -> clientv3.GetResult)
  (rangeResp : clientv3.GetResponse) (n : nat) :
  forall (fuel attempt : nat),
    (forall i, i < n -> get_failed (gets (attempt + i)) = true) ->
    gets (attempt + n) = (Some rangeResp, None) ->
    n < fuel ->
    killer_bootstrap fuel gets attempt =
      (repeat (ClientGet (config.Pipeline Conf) [clientv3.WithPrefix]) (S n),
       Done (add64 (clientv3.Revision (clientv3.Header rangeResp)) 1)).
Proof.
  induction n as [|n IH]; intros fuel attempt Hfail Hok Hfuel;
    (destruct fuel as [|fuel]; [lia|]); cbn [killer_bootstrap]; rewrite bind_call.
  - rewrite Nat.add_0_r in Hok. rewrite Hok. reflexivity.
  - pose proof (Hfail 0 ltac:(lia)) as H0. rewrite Nat.add_0_r in H0.
    unfold get_failed in H0. destruct (snd (gets attempt)); [|discriminate].
    rewrite (IH fuel (S attempt)).
    + reflexivity.
    + intros i Hi. replace (S attempt + i) with (attempt + S i) by lia.
      apply Hfail. lia.
    + replace (S attempt + n) with (attempt + S n) by lia. exact Hok.
    + lia.
Qed.

Lemma killer_bootstrap_spins (gets : nat -> clientv3.GetResult) :
  (forall i, get_failed (gets i) = true) ->
  forall (fuel attempt : nat),
    killer_bootstrap fuel gets attempt =
      (repeat (ClientGet (config.Pipeline Conf) [clientv3.WithPrefix]) fuel, StillLooping).
Proof.
  intros Hfail. induction fuel as [|fuel IH]; intros attempt.
  - reflexivity.
  - cbn [killer_bootstrap]. rewrite bind_call.
    pose proof (Hfail attempt) as H0. unfold get_failed in H0.
    destruct (snd (gets attempt)); [|discriminate].
    rewrite IH. reflexivity.
Qed.

Lemma killer_event_run (event : mvccpb.Event) :
  killer_event event =
    (decode_log (mvccpb.Value (mvccpb.Kv event)) ++
       [LogPrintf
          match mvccpb.Type_ event with
          | mvccpb.PUT => registered_format
          | mvccpb.DELETE => offline_format
          end
          (models.Id (decoded (mvccpb.Value (mvccpb.Kv event))))],
     Done tt).
Proof.
  unfold killer_event.
  rewrite (bind_done _ _ _ _ (unmarshal_logged_run _)).
  destruct (mvccpb.Type_ event); reflexivity.
Qed.

Lemma killer_watch_loop_total (watchChan : list clientv3.WatchResponse) :
  range watchChan killer_batch =
    (flat_map (fun watchResp => fst (killer_batch watchResp)) watchChan, Done tt).
Proof.
  apply range_total. intros watchResp. unfold killer_batch.
  rewrite range_total; [reflexivity|].
  intros event. rewrite killer_event_run. reflexivity.
Qed.

Lemma store_calls_killer_watch_loop (watchChan : list clientv3.WatchResponse) :
  store_calls (fst (range watchChan killer_batch)) = [].
Proof.
  unfold store_calls. apply filter_range_nil. intros watchResp.
  unfold killer_batch. apply filter_range_nil. intros event.
  rewrite killer_event_run. simpl.
  rewrite filter_app, filter_decode_log by reflexivity. reflexivity.
Qed.

Lemma WatchKiller_ok (gets : nat -> clientv3.GetResult)
  (rangeResp : clientv3.GetResponse) (n fuel : nat)
  (watchChan : list clientv3.WatchResponse) :
  (forall i, i < n -> get_failed (gets i) = true) ->
  gets n = (Some rangeResp, None) ->
  n < fuel ->
  WatchKiller fuel gets watchChan =
    (repeat (ClientGet (config.Pipeline Conf) [clientv3.WithPrefix]) (S n)
       ++ ClientWatch ""
            [clientv3.WithPrefix;
             clientv3.WithRev (add64 (clientv3.Revision (clientv3.Header rangeResp)) 1)]
       :: fst (range watchChan killer_batch),
     Done tt).
Proof.
  intros Hfail Hok Hfuel. unfold WatchKiller.
  rewrite (bind_done _ _ _ _
             (killer_bootstrap_retries gets rangeResp n fuel 0 Hfail Hok Hfuel)).
  rewrite bind_call, killer_watch_loop_total. reflexivity.
Qed.

(** C5.  The two ways of meeting a failed snapshot read.  WatchPipelines
    panics with the error right after its one read: nothing is pushed and no
    watch is opened.  WatchKiller swallows the same error and reads again:
    when the first [n] reads fail and the next succeeds, it has read [n + 1]
    times and goes on to its watch; and as long as every read fails it keeps
    reading, whatever the number of iterations allowed. *)
Theorem C5_bootstrap_failure_fatal_or_retried :
  forall (local : string) (err : error) (resp : option clientv3.GetResponse)
         (gets : nat -> clientv3.GetResult) (rangeResp : clientv3.GetResponse)
         (n fuel : nat) (watchChan : list clientv3.WatchResponse),
    (forall i, i < n -> gets i = (resp, Some err)) ->
    gets n = (Some rangeResp, None) ->
    n < fuel ->
    WatchPipelines local (resp, Some err) watchChan =
      ([ClientGet (config.Pipeline Conf) [clientv3.WithPrefix]], Panicked (PanicErr err))
    /\
    killer_bootstrap fuel gets 0 =
      (repeat (ClientGet (config.Pipeline Conf) [clientv3.WithPrefix]) (S n),
       Done (add64 (clientv3.Revision (clientv3.Header rangeResp)) 1))
    /\
    (exists (opts : list clientv3.OpOption) (rest : list Call),
       WatchKiller fuel gets watchChan =
         (repeat (ClientGet (config.Pipeline Conf) [clientv3.WithPrefix]) (S n)
            ++ ClientWatch "" opts :: rest, Done tt))
    /\
    (forall (budget : nat),
       WatchKiller budget (fun _ => (resp, Some err)) watchChan =
         (repeat (ClientGet (config.Pipeline Conf) [clientv3.WithPrefix]) budget,
          StillLooping)).
Proof.
  intros local err resp gets rangeResp n fuel watchChan Hfail Hok Hfuel.
  assert (Hfailed : forall i, i < n -> get_failed (gets i) = true)
    by (intros i Hi; rewrite (Hfail i Hi); reflexivity).
  split; [reflexivity|].
  split; [apply killer_bootstrap_retries; assumption|].
  split.
  - eexists; eexists. apply WatchKiller_ok; eassumption.
  - intros budget. unfold WatchKiller.
    rewrite killer_bootstrap_spins by reflexivity. reflexivity.
Qed.

(** C8.  What WatchKiller does with a delivered change: it decodes the
    change's current value [event.Kv.Value], for deletions too, logs a
    decoding error, and writes one log line that names the decoded
    identifier: the registration message on a put-type change, the offline
    message on a delete-type change.  That is all: the previous value is not
    read and no registry is kept. *)
Theorem C8_killer_event_only_logs :
  forall (event : mvccpb.Event) (watchChan : list clientv3.WatchResponse),
    killer_event event =
      (decode_log (mvccpb.Value (mvccpb.Kv event)) ++
         [LogPrintf
            match mvccpb.Type_ event with
            | mvccpb.PUT => registered_format
            | mvccpb.DELETE => offline_format
            end
            (models.Id (decoded (mvccpb.Value (mvccpb.Kv event))))],
       Done tt)
    /\
    range watchChan killer_batch =
      (flat_map (fun watchResp =>
                   flat_map (fun e => fst (killer_event e)) (clientv3.Events watchResp))
                watchChan,
       Done tt).
Proof.
  intros event watchChan. split; [apply killer_event_run|].
  rewrite killer_watch_loop_total. f_equal.
  apply flat_map_ext. intros watchResp. unfold killer_batch.
  rewrite range_total; [reflexivity|].
  intros e. rewrite killer_event_run. reflexivity.
Qed.

(** C9.  The store calls of WatchKiller when its first [n] reads fail and the
    next succeeds at revision [R]: [n + 1] prefix reads of the pipeline
    namespace [config.Conf.Etcd.Pipeline], then one watch on the empty key
    with the prefix option (the entire keyspace) from revision [R + 1],
    without previous values; nothing else. *)
Theorem C9_killer_reads_pipeline_prefix_watches_all :
  forall (gets : nat -> clientv3.GetResult) (rangeResp : clientv3.GetResponse)
         (n fuel : nat) (watchChan : list clientv3.WatchResponse),
    (forall i, i < n -> get_failed (gets i) = true) ->
    gets n = (Some rangeResp, None) ->
    n < fuel ->
    (int64_min <= clientv3.Revision (clientv3.Header rangeResp) < int64_max)%Z ->
    store_calls (fst (WatchKiller fuel gets watchChan)) =
      repeat (ClientGet (config.Pipeline Conf) [clientv3.WithPrefix]) (S n)
        ++ [ ClientWatch ""
               [ clientv3.WithPrefix;
                 clientv3.WithRev (clientv3.Revision (clientv3.Header rangeResp) + 1) ] ].
Proof.
  intros gets rangeResp n fuel watchChan Hfail Hok Hfuel Hrev.
  rewrite (WatchKiller_ok gets rangeResp n fuel watchChan Hfail Hok Hfuel).
  cbn [fst]. unfold store_calls.
  rewrite filter_app. cbn [filter is_store].
  fold (store_calls (fst (range watchChan killer_batch))).
  rewrite store_calls_killer_watch_loop, add64_succ by exact Hrev.
  f_equal. apply forallb_filter_id.
  clear. induction n as [|n IH]; [reflexivity | exact IH].
Qed.

(** ** PostKiller *)

Lemma PostKiller_granted (params : KillPipelineRequest)
  (res : clientv3.LeaseGrantResponse) (grantErr put : option error) :
  validate_Struct params = None ->
  PostKiller (params, None) (Some res, grantErr) put =
    (ClientGrant 2
       :: match grantErr with Some err => [LogPrintln err] | None => [] end
       ++ ClientPut (config.Killer Conf ++ "/" ++ PipelineId params)%string "pipeline"
            [clientv3.WithLease (clientv3.ID res)]
       :: match put with Some err => [LogPrintln err] | None => [] end,
     Done (Success "" [])).
Proof.
  intros Hvalid. unfold PostKiller. rewrite Hvalid.
  destruct grantErr, put; reflexivity.
Qed.

(** A refused grant: [res] is nil and [res.ID] is read for the write. *)
Lemma PostKiller_grant_refused (params : KillPipelineRequest) (err : error)
  (put : option error) :
  validate_Struct params = None ->
  PostKiller (params, None) (None, Some err) put =
    ([ClientGrant 2; LogPrintln err], Panicked NilDereference).
Proof. intros Hvalid. unfold PostKiller. rewrite Hvalid. reflexivity. Qed.

Lemma PostKiller_unreadable (params : KillPipelineRequest) (err : error)
  (granted : clientv3.GrantResult) (put : option error) :
  PostKiller (params, Some err) granted put =
    ([], Done (InternalServerError "Failed to Unmarshal JSON" err)).
Proof. reflexivity. Qed.

Lemma PostKiller_invalid (params : KillPipelineRequest) (errs : ValidationErrors)
  (granted : clientv3.GrantResult) (put : option error) :
  validate_Struct params = Some errs ->
  PostKiller (params, None) granted put =
    ([], Done (ValidationError (message_Get "pipeline" errs))).
Proof. intros Hinvalid. unfold PostKiller. rewrite Hinvalid. reflexivity. Qed.

(** C6.  PostKiller on a request that was read and validates, once the store
    granted the lease: it returns the success response with an empty
    message and empty data, whether the store accepted the write of the
    marker or not.  An error of the write is logged after the write and
    changes nothing in the response. *)
Theorem C6_write_failure_is_logged_not_reported :
  forall (params : KillPipelineRequest) (res : clientv3.LeaseGrantResponse)
         (put : option error),
    validate_Struct params = None ->
    snd (PostKiller (params, None) (Some res, None) put) = Done (Success "" []) /\
    fst (PostKiller (params, None) (Some res, None) put) =
      [ ClientGrant 2;
        ClientPut (config.Killer Conf ++ "/" ++ PipelineId params)%string "pipeline"
          [clientv3.WithLease (clientv3.ID res)] ]
      ++ match put with Some err => [LogPrintln err] | None => [] end.
Proof.
  intros params res put Hvalid.
  rewrite (PostKiller_granted params res None put Hvalid). split; reflexivity.
Qed.

(** C7.  The store calls of PostKiller on a request that was read and
    validates, when the grant returns a lease: a grant with TTL 2, then one
    write of the value [pipeline] at the key made of the kill namespace, a
    slash and the request's pipeline identifier, bound to the granted
    lease. *)
Theorem C7_lease_ttl_2_and_marker_key :
  forall (params : KillPipelineRequest) (res : clientv3.LeaseGrantResponse)
         (grantErr put : option error),
    validate_Struct params = None ->
    store_calls (fst (PostKiller (params, None) (Some res, grantErr) put)) =
      [ ClientGrant 2;
        ClientPut (config.Killer Conf ++ "/" ++ PipelineId params)%string "pipeline"
          [clientv3.WithLease (clientv3.ID res)] ].
Proof.
  intros params res grantErr put Hvalid.
  rewrite (PostKiller_granted params res grantErr put Hvalid).
  destruct grantErr, put; reflexivity.
Qed.

(** ** Whole runs of the watchers *)

Lemma flat_map_in_ext {A B : Type} (f g : A -> list B) (xs : list A) :
  (forall x, In x xs -> f x = g x) -> flat_map f xs = flat_map g xs.
Proof.
  induction xs as [|x xs IH]; intros Hfg; simpl.
  - reflexivity.
  - rewrite (Hfg x (or_introl eq_refl)), IH; [reflexivity|].
    intros y Hy. apply Hfg. right. exact Hy.
Qed.

Lemma range_total_in {A : Type} (body : A -> Run unit) (xs : list A) :
  (forall x, In x xs -> snd (body x) = Done tt) ->
  range xs body = (flat_map (fun x => fst (body x)) xs, Done tt).
Proof.
  induction xs as [|x xs IH]; intros Hbody.
  - reflexivity.
  - rewrite (range_step body x xs (fst (body x))).
    + rewrite IH by (intros y Hy; apply Hbody; right; exact Hy). reflexivity.
    + rewrite <- (Hbody x (or_introl eq_refl)). apply surjective_pairing.
Qed.

(** A loop that meets a panicking element after elements that return stops
    there. *)
Lemma range_panics {A : Type} (body : A -> Run unit) (xs zs : list A) (y : A)
  (t : list Call) (v : PanicValue) :
  (forall x, In x xs -> snd (body x) = Done tt) ->
  body y = (t, Panicked v) ->
  range (xs ++ y :: zs) body = (flat_map (fun x => fst (body x)) xs ++ t, Panicked v).
Proof.
  induction xs as [|x xs IH]; intros Hbody Hy.
  - simpl. rewrite Hy. reflexivity.
  - simpl app. rewrite (range_step body x _ (fst (body x))).
    + rewrite IH by (try exact Hy; intros z Hz; apply Hbody; right; exact Hz).
      simpl. rewrite app_assoc. reflexivity.
    + rewrite <- (Hbody x (or_introl eq_refl)). apply surjective_pairing.
Qed.

Lemma on_event_returns (local : string) (event : mvccpb.Event) :
  carries_prev event = true -> snd (on_event local event) = Done tt.
Proof.
  destruct event as [[|] k [prev|]]; intros Hprev; try discriminate Hprev.
  - rewrite on_event_put. reflexivity.
  - rewrite on_event_put. reflexivity.
  - rewrite on_event_delete. reflexivity.
Qed.

Lemma on_batch_run (local : string) (watchResp : clientv3.WatchResponse) :
  forallb carries_prev (clientv3.Events watchResp) = true ->
  on_batch local watchResp =
    (flat_map (fun event => fst (on_event local event)) (clientv3.Events watchResp)
       ++ [TimeSleep 1], Done tt).
Proof.
  intros Hprev. unfold on_batch.
  rewrite range_total_in.
  - reflexivity.
  - intros event Hin. apply on_event_returns.
    rewrite forallb_forall in Hprev. apply Hprev, Hin.
Qed.

Lemma streaming_phase_run (local : string) (watchChan : list clientv3.WatchResponse) :
  forallb (fun watchResp => forallb carries_prev (clientv3.Events watchResp))
          watchChan = true ->
  streaming_phase local watchChan =
    (flat_map (fun watchResp =>
                 flat_map (fun event => fst (on_event local event))
                          (clientv3.Events watchResp) ++ [TimeSleep 1])
              watchChan,
     Done tt).
Proof.
  intros Hprev. unfold streaming_phase.
  rewrite forallb_forall in Hprev.
  rewrite range_total_in.
  - f_equal. apply flat_map_in_ext.
    intros watchResp Hin. rewrite on_batch_run by (apply Hprev, Hin). reflexivity.
  - intros watchResp Hin. rewrite on_batch_run by (apply Hprev, Hin). reflexivity.
Qed.

(** X1.  The streaming loop of WatchPipelines handles the changes in the
    order of delivery, batch after batch, and sleeps one second after every
    batch, the last one included; when the channel is closed it returns.
    (Every deletion carries its previous value.) *)
Theorem streaming_in_order_one_pause_per_batch :
  forall (local : string) (watchChan : list clientv3.WatchResponse),
    forallb (fun watchResp => forallb carries_prev (clientv3.Events watchResp))
            watchChan = true ->
    streaming_phase local watchChan =
      (flat_map (fun watchResp =>
                   flat_map (fun event => fst (on_event local event))
                            (clientv3.Events watchResp) ++ [TimeSleep 1])
                watchChan,
       Done tt).
Proof. exact streaming_phase_run. Qed.

(** X2.  A deletion delivered without its previous value ends the run of the
    streaming loop with a nil dereference: the changes before it have been
    handled, the rest of its batch and all later batches never are, and the
    batch's pause is not taken. *)
Theorem streaming_stops_at_deletion_without_previous_value :
  forall (local : string) (before after : list clientv3.WatchResponse)
         (pre post : list mvccpb.Event) (k : mvccpb.KeyValue),
    forallb (fun watchResp => forallb carries_prev (clientv3.Events watchResp))
            before = true ->
    forallb carries_prev pre = true ->
    streaming_phase local
      (before
         ++ {| clientv3.Events :=
                 pre ++ {| mvccpb.Type_ := mvccpb.DELETE; mvccpb.Kv := k;
                           mvccpb.PrevKv := None |} :: post |}
         :: after) =
      (fst (streaming_phase local before)
         ++ flat_map (fun event => fst (on_event local event)) pre,
       Panicked NilDereference).
Proof.
  intros local before after pre post k Hbefore Hpre.
  rewrite (streaming_phase_run local before Hbefore). cbn [fst].
  unfold streaming_phase.
  rewrite forallb_forall in Hbefore, Hpre.
  rewrite (range_panics (on_batch local) before after _
             (flat_map (fun event => fst (on_event local event)) pre) NilDereference).
  - f_equal. f_equal. apply flat_map_in_ext.
    intros watchResp Hin. rewrite on_batch_run by (apply Hbefore, Hin). reflexivity.
  - intros watchResp Hin. rewrite on_batch_run by (apply Hbefore, Hin). reflexivity.
  - unfold on_batch. cbn [clientv3.Events].
    rewrite (range_panics (on_event local) pre post _ [] NilDereference).
    + rewrite app_nil_r. reflexivity.
    + intros e He. apply on_event_returns, Hpre, He.
    + reflexivity.
Qed.

Lemma forallb_bind {A B : Type} (P : Call -> bool) (m : Run A) (k : A -> Run B) :
  forallb P (fst m) = true ->
  (forall a, forallb P (fst (k a)) = true) ->
  forallb P (fst (bind m k)) = true.
Proof.
  intros Hm Hk. destruct m as [t [a | v | ]]; simpl in *; try assumption.
  rewrite forallb_app, Hm, Hk. reflexivity.
Qed.

Lemma forallb_range {A : Type} (P : Call -> bool) (body : A -> Run unit) (xs : list A) :
  (forall x, forallb P (fst (body x)) = true) ->
  forallb P (fst (range xs body)) = true.
Proof.
  intros Hbody. induction xs as [|x xs IH].
  - reflexivity.
  - rewrite range_cons. apply forallb_bind; [apply Hbody | intros _; exact IH].
Qed.

Lemma forallb_unmarshal_logged (P : Call -> bool) (data : string) :
  (forall e, P (LogPrintln e) = true) ->
  forallb P (fst (unmarshal_logged data)) = true.
Proof.
  intros HP. rewrite unmarshal_logged_run. unfold decode_log. simpl.
  destruct (snd _); simpl; [rewrite HP|]; reflexivity.
Qed.

Lemma forallb_pushed (t : list Call) :
  forallb is_put_or_del (pushed t) = forallb pushes_put_or_del t.
Proof.
  induction t as [|c t IH]; simpl.
  - reflexivity.
  - rewrite forallb_app, IH. reflexivity.
Qed.

Lemma pushes_nothing_pushed (t : list Call) :
  forallb pushes_nothing t = true -> pushed t = [].
Proof.
  induction t as [|c t IH]; simpl; intros H.
  - reflexivity.
  - apply andb_true_iff in H. destruct H as [Hc Ht].
    rewrite (IH Ht). destruct c; try reflexivity; discriminate Hc.
Qed.

Lemma on_event_put_or_del (local : string) (event : mvccpb.Event) :
  forallb pushes_put_or_del (fst (on_event local event)) = true.
Proof.
  unfold on_event. destruct (mvccpb.Type_ event).
  - apply forallb_bind; [apply forallb_unmarshal_logged; reflexivity|].
    intros p. apply forallb_range. intros node. unfold push_if_local.
    destruct (String.eqb node local); reflexivity.
  - apply forallb_bind; [destruct (mvccpb.PrevKv event); reflexivity|].
    intros prev. apply forallb_bind; [apply forallb_unmarshal_logged; reflexivity|].
    intros p. reflexivity.
Qed.

Lemma killer_bootstrap_only_reads (P : Call -> bool) (gets : nat -> clientv3.GetResult) :
  P (ClientGet (config.Pipeline Conf) [clientv3.WithPrefix]) = true ->
  forall (fuel attempt : nat),
    forallb P (fst (killer_bootstrap fuel gets attempt)) = true.
Proof.
  intros HP. induction fuel as [|fuel IH]; intros attempt.
  - reflexivity.
  - cbn [killer_bootstrap]. rewrite bind_call. cbn [fst forallb]. rewrite HP.
    destruct (snd (gets attempt)); [apply IH|].
    destruct (fst (gets attempt)); reflexivity.
Qed.

(** X3.  Neither watcher ever hands the scheduler a KILL event.  Every event
    WatchPipelines pushes, in any run (whatever the read returns and the
    channel delivers, panicking runs included), has type PUT or DEL; and
    WatchKiller pushes no event at all. *)
Theorem watchers_never_push_KILL :
  forall (local : string) (got : clientv3.GetResult)
         (gets : nat -> clientv3.GetResult) (fuel : nat)
         (watchChan : list clientv3.WatchResponse),
    forallb is_put_or_del (pushed (fst (WatchPipelines local got watchChan))) = true /\
    pushed (fst (WatchKiller fuel gets watchChan)) = [].
Proof.
  intros local got gets fuel watchChan. split.
  - rewrite forallb_pushed. unfold WatchPipelines.
    apply forallb_bind; [reflexivity|]. intros _.
    destruct (snd got); [reflexivity|].
    apply forallb_bind; [destruct (fst got); reflexivity|]. intros rangeResp.
    apply forallb_bind.
    { apply forallb_range. intros obj. unfold snapshot_entry.
      apply forallb_bind; [apply forallb_unmarshal_logged; reflexivity|].
      intros p. reflexivity. }
    intros _. apply forallb_bind; [reflexivity|]. intros _.
    apply forallb_range. intros watchResp. unfold on_batch.
    apply forallb_bind; [|intros _; reflexivity].
    apply forallb_range. intros event. apply on_event_put_or_del.
  - apply pushes_nothing_pushed. unfold WatchKiller.
    apply forallb_bind; [apply killer_bootstrap_only_reads; reflexivity|].
    intros rev. apply forallb_bind; [reflexivity|]. intros _.
    apply forallb_range. intros watchResp. unfold killer_batch.
    apply forallb_range. intros event. rewrite killer_event_run. simpl.
    rewrite forallb_app. unfold decode_log.
    destruct (snd _); reflexivity.
Qed.

Lemma killer_bootstrap_reads_revision_only (gets gets' : nat -> clientv3.GetResult) :
  (forall i, snd (gets i) = snd (gets' i)) ->
  (forall i, reported_revision (gets i) = reported_revision (gets' i)) ->
  forall (fuel attempt : nat),
    killer_bootstrap fuel gets attempt = killer_bootstrap fuel gets' attempt.
Proof.
  intros Herr Hrev. induction fuel as [|fuel IH]; intros attempt.
  - reflexivity.
  - cbn [killer_bootstrap]. rewrite <- (Herr attempt).
    destruct (snd (gets attempt)).
    + rewrite IH. reflexivity.
    + pose proof (Hrev attempt) as H. unfold reported_revision in H.
      destruct (fst (gets attempt)), (fst (gets' attempt)); simpl in H;
        try discriminate H; [|reflexivity].
      injection H as H. simpl. rewrite H. reflexivity.
Qed.

(** X4.  WatchKiller uses its snapshot reads for their errors and reported
    revisions only: two stores that answer the reads with the same errors
    and revisions give the same run, whatever entries the reads return.  The
    keys present at start-up are never looked at. *)
Theorem WatchKiller_ignores_snapshot_entries :
  forall (gets gets' : nat -> clientv3.GetResult) (fuel : nat)
         (watchChan : list clientv3.WatchResponse),
    (forall i, snd (gets i) = snd (gets' i)) ->
    (forall i, reported_revision (gets i) = reported_revision (gets' i)) ->
    WatchKiller fuel gets watchChan = WatchKiller fuel gets' watchChan.
Proof.
  intros gets gets' fuel watchChan Herr Hrev. unfold WatchKiller.
  rewrite (killer_bootstrap_reads_revision_only gets gets' Herr Hrev). reflexivity.
Qed.

(** X5.  The store protocol of PostKiller, for every request and every
    answer of the store: it makes no store call at all, or one grant with
    TTL 2 that returned no lease, or that grant followed by one write of the
    marker bound to the lease the grant returned.  A marker is never written
    without a lease, never twice, and nothing is read. *)
Theorem PostKiller_store_protocol :
  forall (read : KillPipelineRequest * option error)
         (granted : clientv3.GrantResult) (put : option error),
    store_calls (fst (PostKiller read granted put)) = [] \/
    (fst granted = None /\
     store_calls (fst (PostKiller read granted put)) = [ClientGrant 2]) \/
    (exists res : clientv3.LeaseGrantResponse,
       fst granted = Some res /\
       store_calls (fst (PostKiller read granted put)) =
         [ ClientGrant 2;
           ClientPut (config.Killer Conf ++ "/" ++ PipelineId (fst read))%string "pipeline"
             [clientv3.WithLease (clientv3.ID res)] ]).
Proof.
  intros [params [readErr|]] [[res|] grantErr] put; unfold PostKiller;
    try (left; reflexivity);
    destruct (validate_Struct params); try (left; reflexivity).
  - right. right. exists res. split; [reflexivity|].
    destruct grantErr, put; reflexivity.
  - right. left. split; [reflexivity|]. destruct grantErr; reflexivity.
Qed.

(** ** PutSteps: the guarded loops *)

Lemma nth_error_middle {A : Type} (done rest : list A) (x : A) :
  nth_error (done ++ x :: rest) (List.length done) = Some x.
Proof. induction done as [|y done IH]; simpl; [reflexivity | exact IH]. Qed.

Lemma set_nth_middle {A : Type} (done rest : list A) (x y : A) :
  set_nth (List.length done) y (done ++ x :: rest) = done ++ y :: rest.
Proof. induction done as [|z done IH]; simpl; [|rewrite IH]; reflexivity. Qed.

Lemma set_nth_length {A : Type} (n : nat) (y : A) (l : list A) :
  List.length (set_nth n y l) = List.length l.
Proof.
  revert n. induction l as [|x l IH]; intros [|n]; simpl; try reflexivity.
  rewrite IH. reflexivity.
Qed.

Lemma at_index_middle {C R A : Type} (done rest : list A) (x : A) (log : list C) :
  @at_index C R A (done ++ x :: rest) (Z.of_nat (List.length done)) log = (log, inl x).
Proof.
  unfold at_index.
  destruct (Z.leb_spec 0 (Z.of_nat (List.length done))) as [_|Hneg]; [|lia].
  rewrite Nat2Z.id, nth_error_middle. reflexivity.
Qed.

Lemma at_index_end {C R A : Type} (xs : list A) (log : list C) :
  @at_index C R A xs (Z.of_nat (List.length xs)) log =
    (log, inr (IndexOutOfRange (Z.of_nat (List.length xs)) (List.length xs))).
Proof.
  unfold at_index.
  destruct (Z.leb_spec 0 (Z.of_nat (List.length xs))) as [_|Hneg]; [|lia].
  rewrite Nat2Z.id.
  rewrite (proj2 (nth_error_None xs (List.length xs)) (Nat.le_refl _)). reflexivity.
Qed.

Lemma for_index_S (guard : Z -> bool) (delta : Z) (rounds : nat) (index : Z)
  (relations : list pivot.PipelineTaskPivot) :
  for_index guard delta (S rounds) index relations =
    hbind (if guard index then shift_step delta relations index else hret relations)
          (fun relations' => for_index guard delta rounds (index + 1) relations').
Proof. reflexivity. Qed.

(** A guarded loop over the relations when [Update] never fails: the rows
    whose index passes the guard are shifted and written, in order; the
    round at [index = count] panics when its index passes the guard. *)
Lemma for_index_run (guard : Z -> bool) (delta : Z) :
  (forall k, update_err k = None) ->
  forall (rest done log : list pivot.PipelineTaskPivot),
    for_index guard delta (S (List.length rest)) (Z.of_nat (List.length done))
      (done ++ rest) log =
      (log ++ written_where guard delta (Z.of_nat (List.length done)) rest,
       if guard (Z.of_nat (List.length (done ++ rest)))
       then inr (IndexOutOfRange (Z.of_nat (List.length (done ++ rest)))
                                 (List.length (done ++ rest)))
       else inl (done ++ bump_where guard delta (Z.of_nat (List.length done)) rest)).
Proof.
  intros Hupd. induction rest as [|p rest IH]; intros done log.
  - rewrite for_index_S. cbn [List.length written_where bump_where].
    rewrite !app_nil_r.
    unfold hbind. destruct (guard (Z.of_nat (List.length done))).
    + unfold shift_step, hbind. rewrite at_index_end. reflexivity.
    + reflexivity.
  - cbn [List.length]. rewrite for_index_S.
    cbn [written_where bump_where]. unfold hbind at 1.
    assert (Hnext : (Z.of_nat (List.length done) + 1)%Z =
                    Z.of_nat (List.length (done ++ [p]))).
    { rewrite length_app. simpl. lia. }
    assert (Hlen : forall q, List.length ((done ++ [q]) ++ rest) =
                             List.length (done ++ p :: rest)).
    { intros q. rewrite !length_app. simpl. lia. }
    destruct (guard (Z.of_nat (List.length done))).
    + unfold shift_step, hbind. rewrite at_index_middle.
      unfold Update. rewrite Hupd. unfold hret.
      rewrite Nat2Z.id, set_nth_middle.
      replace (done ++ pivot.with_Step (add64 (pivot.Step p) delta) p :: rest)
        with ((done ++ [bump delta p]) ++ rest)
        by (rewrite <- app_assoc; reflexivity).
      rewrite Hnext.
      replace (List.length (done ++ [p])) with (List.length (done ++ [bump delta p]))
        by (rewrite !length_app; reflexivity).
      rewrite IH, Hlen. rewrite <- !app_assoc. reflexivity.
    + unfold hret.
      replace (done ++ p :: rest) with ((done ++ [p]) ++ rest) at 1
        by (rewrite <- app_assoc; reflexivity).
      rewrite Hnext, IH, Hlen. rewrite <- !app_assoc. reflexivity.
Qed.

Lemma bump_where_app (guard : Z -> bool) (delta : Z) (l1 l2 : list pivot.PipelineTaskPivot) :
  forall index,
    bump_where guard delta index (l1 ++ l2) =
      bump_where guard delta index l1
        ++ bump_where guard delta (index + Z.of_nat (List.length l1)) l2.
Proof.
  induction l1 as [|p l1 IH]; intros index.
  - simpl. rewrite Z.add_0_r. reflexivity.
  - cbn [app bump_where List.length]. rewrite IH.
    replace (index + 1 + Z.of_nat (List.length l1))%Z
      with (index + Z.of_nat (S (List.length l1)))%Z by lia.
    reflexivity.
Qed.

Lemma written_where_app (guard : Z -> bool) (delta : Z)
  (l1 l2 : list pivot.PipelineTaskPivot) :
  forall index,
    written_where guard delta index (l1 ++ l2) =
      written_where guard delta index l1
        ++ written_where guard delta (index + Z.of_nat (List.length l1)) l2.
Proof.
  induction l1 as [|p l1 IH]; intros index.
  - simpl. rewrite Z.add_0_r. reflexivity.
  - cbn [app written_where List.length]. rewrite IH, <- app_assoc.
    replace (index + 1 + Z.of_nat (List.length l1))%Z
      with (index + Z.of_nat (S (List.length l1)))%Z by lia.
    reflexivity.
Qed.

Lemma where_none (guard : Z -> bool) (delta : Z) (l : list pivot.PipelineTaskPivot) :
  forall index,
    (forall j, (index <= j < index + Z.of_nat (List.length l))%Z -> guard j = false) ->
    bump_where guard delta index l = l /\ written_where guard delta index l = [].
Proof.
  induction l as [|p l IH]; intros index Hguard.
  - split; reflexivity.
  - cbn [bump_where written_where].
    rewrite (Hguard index) by (cbn [List.length]; lia).
    destruct (IH (index + 1)%Z) as [Hb Hw].
    { intros j Hj. apply Hguard. cbn [List.length]. lia. }
    rewrite Hb, Hw. split; reflexivity.
Qed.

Lemma where_all (guard : Z -> bool) (delta : Z) (l : list pivot.PipelineTaskPivot) :
  forall index,
    (forall j, (index <= j < index + Z.of_nat (List.length l))%Z -> guard j = true) ->
    bump_where guard delta index l = map (bump delta) l /\
    written_where guard delta index l = map (bump delta) l.
Proof.
  induction l as [|p l IH]; intros index Hguard.
  - split; reflexivity.
  - cbn [bump_where written_where map].
    rewrite (Hguard index) by (cbn [List.length]; lia).
    destruct (IH (index + 1)%Z) as [Hb Hw].
    { intros j Hj. apply Hguard. cbn [List.length]. lia. }
    rewrite Hb, Hw. split; reflexivity.
Qed.

(** A guarded loop whose guard picks out the segment [M] of
    [A ++ M ++ B]. *)
Lemma for_index_segment (guard : Z -> bool) (delta : Z)
  (A M B log : list pivot.PipelineTaskPivot) :
  (forall k, update_err k = None) ->
  (forall j, (0 <= j <= Z.of_nat (List.length (A ++ M ++ B)))%Z ->
             guard j = ((Z.of_nat (List.length A) <=? j)%Z
                        && (j <? Z.of_nat (List.length A + List.length M))%Z)) ->
  for_index guard delta (S (List.length (A ++ M ++ B))) 0 (A ++ M ++ B) log =
    (log ++ map (bump delta) M, inl (A ++ map (bump delta) M ++ B)).
Proof.
  intros Hupd Hguard.
  pose proof (for_index_run guard delta Hupd (A ++ M ++ B) [] log) as Hrun.
  cbn [List.length app] in Hrun. change (Z.of_nat 0) with 0%Z in Hrun.
  rewrite Hrun. clear Hrun.
  assert (Hlen : List.length (A ++ M ++ B) =
                 List.length A + List.length M + List.length B)
    by (rewrite !length_app; lia).
  rewrite Hguard by lia.
  replace ((Z.of_nat (List.length A) <=? Z.of_nat (List.length (A ++ M ++ B)))%Z
           && (Z.of_nat (List.length (A ++ M ++ B))
                 <? Z.of_nat (List.length A + List.length M))%Z)
    with false
    by (symmetry; apply andb_false_iff; right; apply Z.ltb_ge; lia).
  rewrite !bump_where_app, !written_where_app.
  destruct (where_none guard delta A 0) as [HbA HwA].
  { intros j Hj. rewrite Hguard by lia.
    apply andb_false_iff. left. apply Z.leb_gt. lia. }
  destruct (where_all guard delta M (0 + Z.of_nat (List.length A))) as [HbM HwM].
  { intros j Hj. rewrite Hguard by lia.
    apply andb_true_iff. split; [apply Z.leb_le | apply Z.ltb_lt]; lia. }
  destruct (where_none guard delta B
              (0 + Z.of_nat (List.length A) + Z.of_nat (List.length M))) as [HbB HwB].
  { intros j Hj. rewrite Hguard by lia.
    apply andb_false_iff. right. apply Z.ltb_ge. lia. }
  rewrite HbA, HwA, HbM, HwM, HbB, HwB, app_nil_r. reflexivity.
Qed.

(** ** PutSteps: numbering and sorting *)

Lemma add64_small (a b : Z) :
  (int64_min <= a + b <= int64_max)%Z -> add64 a b = (a + b)%Z.
Proof.
  unfold int64_min, int64_max, add64, wrap64. intros Hr.
  rewrite Z.mod_small by lia. lia.
Qed.

Lemma with_Step_same (p : pivot.PipelineTaskPivot) :
  pivot.with_Step (pivot.Step p) p = p.
Proof. destruct p. reflexivity. Qed.

Lemma numbered_app (l1 l2 : list pivot.PipelineTaskPivot) :
  forall k,
    numbered k (l1 ++ l2) <->
    numbered k l1 /\ numbered (k + Z.of_nat (List.length l1)) l2.
Proof.
  induction l1 as [|p l1 IH]; intros k.
  - simpl. rewrite Z.add_0_r. tauto.
  - cbn [app numbered List.length]. rewrite IH.
    replace (k + 1 + Z.of_nat (List.length l1))%Z
      with (k + Z.of_nat (S (List.length l1)))%Z by lia.
    tauto.
Qed.

Lemma renumber_app (l1 l2 : list pivot.PipelineTaskPivot) :
  forall k,
    renumber k (l1 ++ l2) =
      renumber k l1 ++ renumber (k + Z.of_nat (List.length l1)) l2.
Proof.
  induction l1 as [|p l1 IH]; intros k.
  - simpl. rewrite Z.add_0_r. reflexivity.
  - cbn [app renumber List.length]. rewrite IH.
    replace (k + 1 + Z.of_nat (List.length l1))%Z
      with (k + Z.of_nat (S (List.length l1)))%Z by lia.
    reflexivity.
Qed.

Lemma renumber_numbered (l : list pivot.PipelineTaskPivot) :
  forall k, numbered k l -> renumber k l = l.
Proof.
  induction l as [|p l IH]; intros k Hnum.
  - reflexivity.
  - destruct Hnum as [Hp Hl]. simpl. rewrite (IH _ Hl), <- Hp, with_Step_same.
    reflexivity.
Qed.

Lemma numbered_renumber (l : list pivot.PipelineTaskPivot) :
  forall k, numbered k (renumber k l).
Proof.
  induction l as [|p l IH]; intros k; simpl; [exact I | split; [reflexivity | apply IH]].
Qed.

Lemma renumber_length (l : list pivot.PipelineTaskPivot) :
  forall k, List.length (renumber k l) = List.length l.
Proof. induction l as [|p l IH]; intros k; simpl; [|rewrite IH]; reflexivity. Qed.

(** Shifting a numbered segment by [delta] renumbers it. *)
Lemma bump_numbered (delta : Z) (l : list pivot.PipelineTaskPivot) :
  forall k,
    numbered k l ->
    (int64_min <= k + delta)%Z ->
    (k + delta + Z.of_nat (List.length l) <= int64_max + 1)%Z ->
    map (bump delta) l = renumber (k + delta) l.
Proof.
  induction l as [|p l IH]; intros k Hnum Hlo Hhi.
  - reflexivity.
  - destruct Hnum as [Hp Hl]. cbn [map renumber List.length] in *.
    unfold bump at 1. rewrite Hp, add64_small by lia.
    rewrite (IH (k + 1)%Z Hl) by lia.
    replace (k + 1 + delta)%Z with (k + delta + 1)%Z by lia. reflexivity.
Qed.

Lemma numbered_lower_bound (l : list pivot.PipelineTaskPivot) :
  forall k, numbered k l -> Forall (fun p => (k <= pivot.Step p)%Z) l.
Proof.
  induction l as [|p l IH]; intros k Hnum.
  - constructor.
  - destruct Hnum as [Hp Hl]. constructor; [lia|].
    apply (Forall_impl _ (P := fun q => (k + 1 <= pivot.Step q)%Z)); [|apply IH, Hl].
    intros q Hq. lia.
Qed.

Lemma numbered_strictly_sorted (l : list pivot.PipelineTaskPivot) :
  forall k,
    numbered k l ->
    StronglySorted (fun a b => (pivot.Step a < pivot.Step b)%Z) l.
Proof.
  induction l as [|p l IH]; intros k Hnum.
  - constructor.
  - destruct Hnum as [Hp Hl]. constructor; [apply (IH _ Hl)|].
    apply (Forall_impl _ (P := fun q => (k + 1 <= pivot.Step q)%Z));
      [|apply numbered_lower_bound, Hl].
    intros q Hq. lia.
Qed.

(** Two arrangements of the same relations, one in ascending and one in
    strictly ascending step order, are the same list. *)
Lemma sorted_arrangement_unique (s : list pivot.PipelineTaskPivot) :
  forall t,
    Permutation s t ->
    StronglySorted (fun a b => (pivot.Step a <= pivot.Step b)%Z) s ->
    StronglySorted (fun a b => (pivot.Step a < pivot.Step b)%Z) t ->
    s = t.
Proof.
  induction s as [|a s IH]; intros t Hperm Hs Ht.
  - apply Permutation_nil in Hperm. symmetry. exact Hperm.
  - destruct t as [|b t].
    { apply Permutation_sym, Permutation_nil in Hperm. discriminate Hperm. }
    apply StronglySorted_inv in Hs. destruct Hs as [Hs Has].
    apply StronglySorted_inv in Ht. destruct Ht as [Ht Hbt].
    assert (Hab : a = b).
    { assert (Hb : In b (a :: s))
        by (apply (Permutation_in b (Permutation_sym Hperm)); left; reflexivity).
      assert (Ha : In a (b :: t))
        by (apply (Permutation_in a Hperm); left; reflexivity).
      destruct Hb as [Hb | Hb]; [exact Hb|].
      destruct Ha as [Ha | Ha]; [symmetry; exact Ha|].
      rewrite Forall_forall in Has, Hbt.
      specialize (Has b Hb). specialize (Hbt a Ha). simpl in *. lia. }
    subst b. f_equal. apply IH; try assumption.
    apply (Permutation_cons_inv Hperm).
Qed.

(** ** PutSteps: moving a relation *)

Lemma map_TaskId_renumber (l : list pivot.PipelineTaskPivot) :
  forall k, map pivot.TaskId (renumber k l) = map pivot.TaskId l.
Proof. induction l as [|p l IH]; intros k; simpl; [|rewrite IH]; reflexivity. Qed.

Lemma respond_with_tasks_ok {C A : Type} (relations : list pivot.PipelineTaskPivot)
  (tasks : list task.Task) (log : list C) :
  find_tasks (map pivot.TaskId relations) = (tasks, None) ->
  @respond_with_tasks C A relations log =
    (log, inr (Return (response.Success "Successful" (attach tasks relations)))).
Proof. intros Htasks. unfold respond_with_tasks. rewrite Htasks. reflexivity. Qed.

Lemma hbind_inl {C R A B : Type} (m : Handler C R A) (k : A -> Handler C R B)
  (log log' : list C) (a : A) :
  m log = (log', inl a) -> hbind m k log = k a log'.
Proof. intros Hm. unfold hbind. rewrite Hm. reflexivity. Qed.

Lemma hbind_inr {C R A B : Type} (m : Handler C R A) (k : A -> Handler C R B)
  (log log' : list C) (e : Exit R) :
  m log = (log', inr e) -> hbind m k log = (log', inr e).
Proof. intros Hm. unfold hbind. rewrite Hm. reflexivity. Qed.

Ltac z_bool :=
  repeat match goal with
         | |- context [(?a =? ?b)%Z] => destruct (Z.eqb_spec a b)
         | |- context [(?a <? ?b)%Z] => destruct (Z.ltb_spec a b)
         | |- context [(?a <=? ?b)%Z] => destruct (Z.leb_spec a b)
         | |- context [(?a >? ?b)%Z] => destruct (Z.gtb_spec a b)
         | |- context [(?a >=? ?b)%Z] => destruct (Z.geb_spec a b)
         end; simpl; try reflexivity; try lia.

(** The loops when the relation at [Origin] goes down the list, past the
    segment [M], to [Current]. *)
Lemma shift_between_down (params : putsteps.PutStepsRequest)
  (A M B : list pivot.PipelineTaskPivot) (x : pivot.PipelineTaskPivot) :
  (forall k, update_err k = None) ->
  putsteps.Origin params = Z.of_nat (List.length A) ->
  putsteps.Current params = Z.of_nat (List.length A + List.length M) ->
  shift_between params (A ++ x :: M ++ B) [] =
    (map (bump (-1)) M, inl (A ++ x :: map (bump (-1)) M ++ B)).
Proof.
  intros Hupd Horigin Hcurrent.
  unfold shift_between. rewrite Horigin, Hcurrent.
  replace ((Z.of_nat (List.length A + List.length M) =? 0)%Z
           && (Z.of_nat (List.length A) >? 0)%Z) with false by (symmetry; z_bool).
  replace (negb (Z.of_nat (List.length A + List.length M) =? 0)%Z
           && (Z.of_nat (List.length A + List.length M) <? Z.of_nat (List.length A))%Z)
    with false by (symmetry; z_bool).
  rewrite (hbind_inl _ _ [] [] (A ++ x :: M ++ B)) by reflexivity.
  rewrite (hbind_inl _ _ [] (map (bump (-1)) M) (A ++ x :: map (bump (-1)) M ++ B));
    [reflexivity|].
  destruct (Z.gtb_spec (Z.of_nat (List.length A + List.length M))
                       (Z.of_nat (List.length A))) as [Hgt | Hle].
  - replace (A ++ x :: M ++ B) with ((A ++ [x]) ++ M ++ B)
      by (rewrite <- app_assoc; reflexivity).
    rewrite for_index_segment; [rewrite <- app_assoc; reflexivity | exact Hupd |].
    intros j Hj. rewrite length_app. cbn [List.length]. z_bool.
  - destruct M as [|m M]; [reflexivity | cbn [List.length] in Hle; lia].
Qed.

(** The loops when the relation at [Origin] goes up the list, past the
    segment [M], to [Current]. *)
Lemma shift_between_up (params : putsteps.PutStepsRequest)
  (A M B : list pivot.PipelineTaskPivot) (x : pivot.PipelineTaskPivot) :
  (forall k, update_err k = None) ->
  putsteps.Origin params = Z.of_nat (List.length A + List.length M) ->
  putsteps.Current params = Z.of_nat (List.length A) ->
  M <> [] ->
  shift_between params (A ++ M ++ x :: B) [] =
    (map (bump 1) M, inl (A ++ map (bump 1) M ++ x :: B)).
Proof.
  intros Hupd Horigin Hcurrent HM.
  assert (HlenM : 0 < List.length M) by (destruct M; [contradiction | simpl; lia]).
  unfold shift_between. rewrite Horigin, Hcurrent.
  replace ((Z.of_nat (List.length A) >? Z.of_nat (List.length A + List.length M))%Z)
    with false by (symmetry; z_bool).
  destruct A as [|a A].
  - (* to the front: the first loop *)
    cbn [List.length Nat.add app].
    replace ((Z.of_nat 0 =? 0)%Z && (Z.of_nat (List.length M) >? 0)%Z) with true
      by (symmetry; z_bool).
    replace (negb (Z.of_nat 0 =? 0)%Z
             && (Z.of_nat 0 <? Z.of_nat (List.length M))%Z) with false
      by (symmetry; z_bool).
    rewrite (hbind_inl _ _ [] (map (bump 1) M) (map (bump 1) M ++ x :: B)).
    + reflexivity.
    + rewrite (for_index_segment _ 1 [] M (x :: B) [] Hupd); [reflexivity|].
      intros j Hj. cbn [List.length Nat.add]. z_bool.
  - (* elsewhere: the third loop *)
    replace ((Z.of_nat (List.length (a :: A)) =? 0)%Z
             && (Z.of_nat (List.length (a :: A) + List.length M) >? 0)%Z) with false
      by (cbn [List.length]; symmetry; z_bool).
    replace (negb (Z.of_nat (List.length (a :: A)) =? 0)%Z
             && (Z.of_nat (List.length (a :: A))
                   <? Z.of_nat (List.length (a :: A) + List.length M))%Z) with true
      by (cbn [List.length]; symmetry; z_bool).
    rewrite (hbind_inl _ _ [] [] ((a :: A) ++ M ++ x :: B)) by reflexivity.
    rewrite (hbind_inl _ _ [] [] ((a :: A) ++ M ++ x :: B)) by reflexivity.
    rewrite (for_index_segment _ 1 (a :: A) M (x :: B) [] Hupd); [reflexivity|].
    intros j Hj. z_bool.
Qed.

(** The end of PutSteps when [Update] succeeds on the moved relation and the
    relations, with the new step in place, have one ascending arrangement
    [target]. *)
Lemma place_run (params : putsteps.PutStepsRequest)
  (P Q target log : list pivot.PipelineTaskPivot) (x : pivot.PipelineTaskPivot)
  (tasks : list task.Task) :
  (forall j, update_err j = None) ->
  sorts_by_step sort_Slice ->
  putsteps.Origin params = Z.of_nat (List.length P) ->
  (int64_min <= putsteps.Current params + 1 <= int64_max)%Z ->
  Permutation (P ++ pivot.with_Step (putsteps.Current params + 1) x :: Q) target ->
  StronglySorted (fun a b => (pivot.Step a < pivot.Step b)%Z) target ->
  find_tasks (map pivot.TaskId target) = (tasks, None) ->
  place params (P ++ x :: Q) log =
    (log ++ [pivot.with_Step (putsteps.Current params + 1) x],
     inr (Return (response.Success "Successful" (attach tasks target)))).
Proof.
  intros Hupd Hsort Horigin Hrange Hperm Hnum Htasks.
  unfold place. rewrite Horigin.
  rewrite (hbind_inl _ _ _ _ x) by apply at_index_middle.
  rewrite (hbind_inl _ _ _
             (log ++ [pivot.with_Step (add64 (putsteps.Current params) 1) x]) None)
    by (unfold Update; rewrite Hupd; reflexivity).
  rewrite Nat2Z.id, set_nth_middle, add64_small by exact Hrange.
  destruct (Hsort (P ++ pivot.with_Step (putsteps.Current params + 1) x :: Q))
    as [Hsame Hle].
  rewrite (sorted_arrangement_unique _ target).
  - apply respond_with_tasks_ok, Htasks.
  - eapply Permutation_trans; [exact Hsame | exact Hperm].
  - exact Hle.
  - exact Hnum.
Qed.

(** Moving down the list. *)
Lemma reorder_down (params : putsteps.PutStepsRequest)
  (A M B : list pivot.PipelineTaskPivot) (x : pivot.PipelineTaskPivot)
  (tasks : list task.Task) :
  (forall k, update_err k = None) ->
  sorts_by_step sort_Slice ->
  numbered 1 (A ++ x :: M ++ B) ->
  putsteps.Origin params = Z.of_nat (List.length A) ->
  putsteps.Current params = Z.of_nat (List.length A + List.length M) ->
  (Z.of_nat (List.length (A ++ x :: M ++ B)) <= int64_max)%Z ->
  find_tasks (map pivot.TaskId (A ++ M ++ x :: B)) = (tasks, None) ->
  reorder params (A ++ x :: M ++ B) [] =
    (renumber (1 + Z.of_nat (List.length A)) M
       ++ [pivot.with_Step (putsteps.Current params + 1) x],
     inr (Return (response.Success "Successful"
                    (attach tasks (renumber 1 (A ++ M ++ x :: B)))))).
Proof.
  intros Hupd Hsort Hnum Horigin Hcurrent Hlen Htasks.
  assert (Hmax : int64_max = 9223372036854775807%Z) by reflexivity.
  assert (Hmin : int64_min = (-9223372036854775808)%Z) by reflexivity.
  rewrite !length_app in Hlen. cbn [List.length] in Hlen. rewrite length_app in Hlen.
  apply numbered_app in Hnum. destruct Hnum as [HnA [Hx HnMB]].
  apply numbered_app in HnMB. destruct HnMB as [HnM HnB].
  assert (Hfinal : A ++ map (bump (-1)) M
                     ++ pivot.with_Step (putsteps.Current params + 1) x :: B =
                   renumber 1 (A ++ M ++ x :: B)).
  { rewrite !renumber_app. cbn [renumber].
    rewrite (renumber_numbered A 1 HnA).
    rewrite (bump_numbered (-1) M _ HnM) by lia.
    rewrite (renumber_numbered B _) by
      (replace (1 + Z.of_nat (List.length A) + Z.of_nat (List.length M) + 1)%Z
         with (1 + Z.of_nat (List.length A) + 1 + Z.of_nat (List.length M))%Z by lia;
       exact HnB).
    rewrite Hcurrent.
    replace (1 + Z.of_nat (List.length A) + 1 + -1)%Z
      with (1 + Z.of_nat (List.length A))%Z by lia.
    replace (Z.of_nat (List.length A + List.length M) + 1)%Z
      with (1 + Z.of_nat (List.length A) + Z.of_nat (List.length M))%Z by lia.
    reflexivity. }
  unfold reorder.
  rewrite (hbind_inl _ _ _ _ _ (shift_between_down params A M B x Hupd Horigin Hcurrent)).
  replace (renumber (1 + Z.of_nat (List.length A)) M) with (map (bump (-1)) M)
    by (rewrite (bump_numbered (-1) M _ HnM) by lia; f_equal; lia).
  apply (place_run params A (map (bump (-1)) M ++ B) _ _ x tasks);
    try assumption.
  - lia.
  - rewrite <- Hfinal. apply Permutation_app_head, Permutation_middle.
  - apply (numbered_strictly_sorted _ 1), numbered_renumber.
  - rewrite map_TaskId_renumber. exact Htasks.
Qed.

(** Moving up the list. *)
Lemma reorder_up (params : putsteps.PutStepsRequest)
  (A M B : list pivot.PipelineTaskPivot) (x : pivot.PipelineTaskPivot)
  (tasks : list task.Task) :
  (forall k, update_err k = None) ->
  sorts_by_step sort_Slice ->
  numbered 1 (A ++ M ++ x :: B) ->
  putsteps.Origin params = Z.of_nat (List.length A + List.length M) ->
  putsteps.Current params = Z.of_nat (List.length A) ->
  M <> [] ->
  (Z.of_nat (List.length (A ++ M ++ x :: B)) <= int64_max)%Z ->
  find_tasks (map pivot.TaskId (A ++ x :: M ++ B)) = (tasks, None) ->
  reorder params (A ++ M ++ x :: B) [] =
    (renumber (2 + Z.of_nat (List.length A)) M
       ++ [pivot.with_Step (putsteps.Current params + 1) x],
     inr (Return (response.Success "Successful"
                    (attach tasks (renumber 1 (A ++ x :: M ++ B)))))).
Proof.
  intros Hupd Hsort Hnum Horigin Hcurrent HM Hlen Htasks.
  assert (Hmax : int64_max = 9223372036854775807%Z) by reflexivity.
  assert (Hmin : int64_min = (-9223372036854775808)%Z) by reflexivity.
  rewrite !length_app in Hlen. cbn [List.length] in Hlen.
  apply numbered_app in Hnum. destruct Hnum as [HnA HnMxB].
  apply numbered_app in HnMxB. destruct HnMxB as [HnM [Hx HnB]].
  assert (Hfinal : A ++ pivot.with_Step (putsteps.Current params + 1) x
                     :: map (bump 1) M ++ B =
                   renumber 1 (A ++ x :: M ++ B)).
  { rewrite renumber_app. cbn [renumber]. rewrite renumber_app.
    rewrite (renumber_numbered A 1 HnA).
    rewrite (bump_numbered 1 M _ HnM) by lia.
    rewrite (renumber_numbered B _) by
      (replace (1 + Z.of_nat (List.length A) + 1 + Z.of_nat (List.length M))%Z
         with (1 + Z.of_nat (List.length A) + Z.of_nat (List.length M) + 1)%Z by lia;
       exact HnB).
    rewrite Hcurrent.
    replace (Z.of_nat (List.length A) + 1)%Z
      with (1 + Z.of_nat (List.length A))%Z by lia.
    reflexivity. }
  unfold reorder.
  rewrite (hbind_inl _ _ _ _ _
             (shift_between_up params A M B x Hupd Horigin Hcurrent HM)).
  replace (renumber (2 + Z.of_nat (List.length A)) M) with (map (bump 1) M)
    by (rewrite (bump_numbered 1 M _ HnM) by lia; f_equal; lia).
  rewrite app_assoc.
  apply (place_run params (A ++ map (bump 1) M) B _ _ x tasks);
    try assumption.
  - rewrite Horigin, length_app, length_map. reflexivity.
  - lia.
  - rewrite <- Hfinal, <- app_assoc.
    apply Permutation_app_head, Permutation_sym, Permutation_middle.
  - apply (numbered_strictly_sorted _ 1), numbered_renumber.
  - rewrite map_TaskId_renumber. exact Htasks.
Qed.

(** ** PutSteps: the answer in terms of the request *)

Lemma firstn_exact {A : Type} (P r : list A) : firstn (List.length P) (P ++ r) = P.
Proof. induction P as [|y P IH]; simpl; [destruct r | rewrite IH]; reflexivity. Qed.

Lemma skipn_exact {A : Type} (P r : list A) : skipn (List.length P) (P ++ r) = r.
Proof. induction P as [|y P IH]; simpl; [reflexivity | exact IH]. Qed.

Lemma move_down {A : Type} (P M Q : list A) (x : A) :
  move (List.length P) (List.length P + List.length M) (P ++ x :: M ++ Q) =
    P ++ M ++ x :: Q.
Proof.
  unfold move. rewrite nth_error_middle, firstn_exact.
  replace (S (List.length P)) with (List.length (P ++ [x]))
    by (rewrite length_app; simpl; lia).
  replace (P ++ x :: M ++ Q) with ((P ++ [x]) ++ M ++ Q)
    by (rewrite <- app_assoc; reflexivity).
  rewrite skipn_exact.
  replace (List.length P + List.length M) with (List.length (P ++ M))
    by apply length_app.
  rewrite (app_assoc P M Q), firstn_exact, skipn_exact, <- app_assoc. reflexivity.
Qed.

Lemma move_up {A : Type} (P M Q : list A) (x : A) :
  move (List.length P + List.length M) (List.length P) (P ++ M ++ x :: Q) =
    P ++ x :: M ++ Q.
Proof.
  unfold move.
  replace (List.length P + List.length M) with (List.length (P ++ M))
    by apply length_app.
  rewrite (app_assoc P M (x :: Q)), nth_error_middle, firstn_exact.
  replace (S (List.length (P ++ M))) with (List.length ((P ++ M) ++ [x]))
    by (rewrite (length_app (P ++ M)); simpl; lia).
  replace ((P ++ M) ++ x :: Q) with (((P ++ M) ++ [x]) ++ Q)
    by (rewrite <- (app_assoc (P ++ M)); reflexivity).
  rewrite skipn_exact, <- (app_assoc P M Q), firstn_exact, skipn_exact. reflexivity.
Qed.

Lemma split_down {A : Type} (l : list A) (i j : nat) :
  i <= j < List.length l ->
  exists P x M Q,
    l = P ++ x :: M ++ Q /\ List.length P = i /\ List.length M = j - i.
Proof.
  intros Hij.
  destruct (nth_error l i) as [x|] eqn:Hx.
  - destruct (nth_error_split l i Hx) as [P [R [Hl HP]]].
    exists P, x, (firstn (j - i) R), (skipn (j - i) R).
    rewrite firstn_skipn. repeat split; try assumption.
    apply firstn_length_le. subst l. rewrite length_app in Hij. simpl in Hij. lia.
  - apply nth_error_None in Hx. lia.
Qed.

Lemma split_up {A : Type} (l : list A) (i j : nat) :
  i < j < List.length l ->
  exists P M x Q,
    l = P ++ M ++ x :: Q /\ List.length P = i /\ List.length M = j - i.
Proof.
  intros Hij.
  destruct (nth_error l j) as [x|] eqn:Hx.
  - destruct (nth_error_split l j Hx) as [R [Q [Hl HR]]].
    exists (firstn i R), (skipn i R), x, Q.
    rewrite app_assoc, firstn_skipn. repeat split; try assumption.
    + apply firstn_length_le. lia.
    + rewrite length_skipn. lia.
  - apply nth_error_None in Hx. lia.
Qed.

Lemma renumber_segment (P M Q : list pivot.PipelineTaskPivot) (k : Z) :
  firstn (List.length M) (skipn (List.length P) (renumber k (P ++ M ++ Q))) =
    renumber (k + Z.of_nat (List.length P)) M.
Proof.
  rewrite renumber_app, <- (renumber_length P k), skipn_exact, renumber_length.
  rewrite renumber_app, <- (renumber_length M (k + Z.of_nat (List.length P))).
  apply firstn_exact.
Qed.

(** PutSteps on a request within the list, over relations numbered from 1,
    when no call of the store fails: the rows written, and the answer. *)
Lemma PutSteps_in_range (params : putsteps.PutStepsRequest)
  (relations : list pivot.PipelineTaskPivot) (tasks : list task.Task) :
  (forall k, update_err k = None) ->
  sorts_by_step sort_Slice ->
  validate_PutSteps params = None ->
  find_relations (putsteps.PipelineId params) = (relations, None) ->
  numbered 1 relations ->
  (0 <= putsteps.Origin params < Z.of_nat (List.length relations))%Z ->
  (0 <= putsteps.Current params < Z.of_nat (List.length relations))%Z ->
  (Z.of_nat (List.length relations) <= int64_max)%Z ->
  find_tasks (map pivot.TaskId
                (move (Z.to_nat (putsteps.Origin params))
                      (Z.to_nat (putsteps.Current params)) relations)) = (tasks, None) ->
  exists written,
    PutSteps (params, None) =
      (written,
       Return (response.Success "Successful"
                 (attach tasks
                    (renumber 1 (move (Z.to_nat (putsteps.Origin params))
                                      (Z.to_nat (putsteps.Current params)) relations)))))
    /\
    Permutation written
      (firstn (Z.to_nat (Z.abs (putsteps.Current params - putsteps.Origin params)) + 1)
         (skipn (Z.to_nat (Z.min (putsteps.Origin params) (putsteps.Current params)))
            (renumber 1 (move (Z.to_nat (putsteps.Origin params))
                              (Z.to_nat (putsteps.Current params)) relations)))).
Proof.
  intros Hupd Hsort Hvalid Hfound Hnum Horigin Hcurrent Hlen Htasks.
  unfold PutSteps. rewrite Hvalid, Hfound. unfold handle.
  destruct (Z.le_gt_cases (putsteps.Origin params) (putsteps.Current params))
    as [Hdown | Hup].
  - destruct (split_down relations (Z.to_nat (putsteps.Origin params))
                (Z.to_nat (putsteps.Current params))) as [A [x [M [B [Hl [HA HM]]]]]];
      [lia|].
    assert (HO : putsteps.Origin params = Z.of_nat (List.length A)) by lia.
    assert (HC : putsteps.Current params = Z.of_nat (List.length A + List.length M))
      by lia.
    subst relations.
    replace (Z.to_nat (putsteps.Origin params)) with (List.length A) in * by lia.
    replace (Z.to_nat (putsteps.Current params))
      with (List.length A + List.length M) in * by lia.
    rewrite move_down in *.
    rewrite (reorder_down params A M B x tasks Hupd Hsort Hnum HO HC Hlen Htasks).
    eexists. split; [reflexivity|].
    replace (Z.to_nat (Z.abs (putsteps.Current params - putsteps.Origin params)) + 1)
      with (List.length (M ++ [x])) by (rewrite length_app; simpl; lia).
    replace (Z.to_nat (Z.min (putsteps.Origin params) (putsteps.Current params)))
      with (List.length A) by lia.
    replace (A ++ M ++ x :: B) with (A ++ (M ++ [x]) ++ B)
      by (rewrite <- (app_assoc M); reflexivity).
    rewrite renumber_segment, renumber_app. cbn [renumber].
    rewrite HC. apply Permutation_app_head.
    replace (Z.of_nat (List.length A + List.length M) + 1)%Z
      with (1 + Z.of_nat (List.length A) + Z.of_nat (List.length M))%Z by lia.
    reflexivity.
  - destruct (split_up relations (Z.to_nat (putsteps.Current params))
                (Z.to_nat (putsteps.Origin params))) as [A [M [x [B [Hl [HA HM]]]]]];
      [lia|].
    assert (HC : putsteps.Current params = Z.of_nat (List.length A)) by lia.
    assert (HO : putsteps.Origin params = Z.of_nat (List.length A + List.length M))
      by lia.
    assert (HMne : M <> []) by (intros ->; simpl in HM; lia).
    subst relations.
    replace (Z.to_nat (putsteps.Current params)) with (List.length A) in * by lia.
    replace (Z.to_nat (putsteps.Origin params))
      with (List.length A + List.length M) in * by lia.
    rewrite move_up in *.
    rewrite (reorder_up params A M B x tasks Hupd Hsort Hnum HO HC HMne Hlen Htasks).
    eexists. split; [reflexivity|].
    replace (Z.to_nat (Z.abs (putsteps.Current params - putsteps.Origin params)) + 1)
      with (List.length (x :: M)) by (simpl; lia).
    replace (Z.to_nat (Z.min (putsteps.Origin params) (putsteps.Current params)))
      with (List.length A) by lia.
    replace (A ++ x :: M ++ B) with (A ++ (x :: M) ++ B) by reflexivity.
    rewrite renumber_segment. cbn [renumber].
    rewrite HC.
    replace (1 + Z.of_nat (List.length A) + 1)%Z
      with (2 + Z.of_nat (List.length A))%Z by lia.
    replace (Z.of_nat (List.length A) + 1)%Z
      with (1 + Z.of_nat (List.length A))%Z by lia.
    apply Permutation_sym, Permutation_cons_append.
Qed.

(** X6.  PutSteps on a request within the list.  Over relations whose steps
    are 1, 2, ... in order, with both positions inside the list and no call
    of the store failing, PutSteps answers success with the relations in
    their new order (the one at [Origin] taken out and put back at
    [Current]), their steps again 1, 2, ... in order, and their tasks
    attached. *)
Theorem PutSteps_moves_and_renumbers :
  forall (params : putsteps.PutStepsRequest)
         (relations : list pivot.PipelineTaskPivot) (tasks : list task.Task),
    (forall k, update_err k = None) ->
    sorts_by_step sort_Slice ->
    validate_PutSteps params = None ->
    find_relations (putsteps.PipelineId params) = (relations, None) ->
    numbered 1 relations ->
    (0 <= putsteps.Origin params < Z.of_nat (List.length relations))%Z ->
    (0 <= putsteps.Current params < Z.of_nat (List.length relations))%Z ->
    (Z.of_nat (List.length relations) <= int64_max)%Z ->
    find_tasks (map pivot.TaskId
                  (move (Z.to_nat (putsteps.Origin params))
                        (Z.to_nat (putsteps.Current params)) relations)) = (tasks, None) ->
    snd (PutSteps (params, None)) =
      Return (response.Success "Successful"
                (attach tasks
                   (renumber 1 (move (Z.to_nat (putsteps.Origin params))
                                     (Z.to_nat (putsteps.Current params)) relations)))).
Proof.
  intros params relations tasks Hupd Hsort Hvalid Hfound Hnum Horigin Hcurrent Hlen Htasks.
  destruct (PutSteps_in_range params relations tasks
              Hupd Hsort Hvalid Hfound Hnum Horigin Hcurrent Hlen Htasks)
    as [written [Hrun _]].
  rewrite Hrun. reflexivity.
Qed.

(** X7.  What PutSteps writes on such a request: exactly the rows that lie
    between the two positions in the answer (both ends included), each once
    and with the step it has in the answer.  Rows outside are not
    written. *)
Theorem PutSteps_writes_the_rows_between :
  forall (params : putsteps.PutStepsRequest)
         (relations : list pivot.PipelineTaskPivot) (tasks : list task.Task),
    (forall k, update_err k = None) ->
    sorts_by_step sort_Slice ->
    validate_PutSteps params = None ->
    find_relations (putsteps.PipelineId params) = (relations, None) ->
    numbered 1 relations ->
    (0 <= putsteps.Origin params < Z.of_nat (List.length relations))%Z ->
    (0 <= putsteps.Current params < Z.of_nat (List.length relations))%Z ->
    (Z.of_nat (List.length relations) <= int64_max)%Z ->
    find_tasks (map pivot.TaskId
                  (move (Z.to_nat (putsteps.Origin params))
                        (Z.to_nat (putsteps.Current params)) relations)) = (tasks, None) ->
    Permutation (fst (PutSteps (params, None)))
      (firstn (Z.to_nat (Z.abs (putsteps.Current params - putsteps.Origin params)) + 1)
         (skipn (Z.to_nat (Z.min (putsteps.Origin params) (putsteps.Current params)))
            (renumber 1 (move (Z.to_nat (putsteps.Origin params))
                              (Z.to_nat (putsteps.Current params)) relations)))).
Proof.
  intros params relations tasks Hupd Hsort Hvalid Hfound Hnum Horigin Hcurrent Hlen Htasks.
  destruct (PutSteps_in_range params relations tasks
              Hupd Hsort Hvalid Hfound Hnum Horigin Hcurrent Hlen Htasks)
    as [written [Hrun Hperm]].
  rewrite Hrun. exact Hperm.
Qed.

(** ** PutSteps: requests outside the list *)

Lemma at_index_nil {C R A : Type} (index : Z) (log : list C) :
  @at_index C R A [] index log = (log, inr (IndexOutOfRange index 0)).
Proof.
  unfold at_index. destruct (0 <=? index)%Z; [|reflexivity].
  destruct (Z.to_nat index); reflexivity.
Qed.

Lemma for_index_nil (guard : Z -> bool) (delta : Z)
  (log : list pivot.PipelineTaskPivot) :
  for_index guard delta 1 0 [] log =
    (log, if guard 0%Z then inr (IndexOutOfRange 0 0) else inl []).
Proof.
  rewrite for_index_S. unfold hbind. destruct (guard 0%Z).
  - unfold shift_step, hbind. rewrite at_index_nil. reflexivity.
  - reflexivity.
Qed.

Lemma shift_between_nil (params : putsteps.PutStepsRequest)
  (log : list pivot.PipelineTaskPivot) :
  shift_between params [] log = (log, inl []) \/
  shift_between params [] log = (log, inr (IndexOutOfRange 0 0)).
Proof.
  unfold shift_between. cbn [List.length]. unfold hbind, hret.
  repeat first
    [ rewrite for_index_nil
    | match goal with
      | |- context [if ?c then _ else _] => destruct c
      end ];
    auto.
Qed.

(** X8.  PutSteps on a pipeline without relations panics on an index out of
    range, whatever the two positions are, and writes nothing. *)
Theorem PutSteps_without_relations_panics :
  forall (params : putsteps.PutStepsRequest),
    validate_PutSteps params = None ->
    find_relations (putsteps.PipelineId params) = ([], None) ->
    exists index : Z, PutSteps (params, None) = ([], IndexOutOfRange index 0).
Proof.
  intros params Hvalid Hfound.
  unfold PutSteps. rewrite Hvalid, Hfound. unfold handle, reorder.
  destruct (shift_between_nil params []) as [Hloops | Hloops].
  - rewrite (hbind_inl _ _ _ _ _ Hloops). unfold place, hbind.
    rewrite at_index_nil. exists (putsteps.Origin params). reflexivity.
  - rewrite (hbind_inr _ _ _ _ _ Hloops). exists 0%Z. reflexivity.
Qed.

(** X9.  PutSteps with [Current] at or beyond the end of the list and
    [Origin] inside it, when no write fails: every relation after [Origin]
    has its step lowered by one and is written, then the loop reads
    [relations[count]] and the handler panics.  The relation at [Origin] is
    never given its new step, and nothing is answered. *)
Theorem PutSteps_current_beyond_end_panics_after_writing :
  forall (params : putsteps.PutStepsRequest) (relations : list pivot.PipelineTaskPivot),
    (forall k, update_err k = None) ->
    validate_PutSteps params = None ->
    find_relations (putsteps.PipelineId params) = (relations, None) ->
    (0 <= putsteps.Origin params < Z.of_nat (List.length relations))%Z ->
    (Z.of_nat (List.length relations) <= putsteps.Current params)%Z ->
    PutSteps (params, None) =
      (map (bump (-1)) (skipn (S (Z.to_nat (putsteps.Origin params))) relations),
       IndexOutOfRange (Z.of_nat (List.length relations)) (List.length relations)).
Proof.
  intros params relations Hupd Hvalid Hfound Horigin Hcurrent.
  unfold PutSteps. rewrite Hvalid, Hfound. unfold handle, reorder.
  destruct (nth_error relations (Z.to_nat (putsteps.Origin params))) as [x|] eqn:Hx;
    [|apply nth_error_None in Hx; lia].
  destruct (nth_error_split relations _ Hx) as [A [M [Hl HA]]].
  rewrite <- HA. subst relations.
  assert (Hskip : skipn (S (List.length A)) (A ++ x :: M) = M).
  { replace (S (List.length A)) with (List.length (A ++ [x]))
      by (rewrite length_app; simpl; lia).
    replace (A ++ x :: M) with ((A ++ [x]) ++ M)
      by (rewrite <- app_assoc; reflexivity).
    apply skipn_exact. }
  rewrite Hskip.
  rewrite length_app in Horigin, Hcurrent. cbn [List.length] in Horigin, Hcurrent.
  rewrite (hbind_inr _ _ []
             (map (bump (-1)) M)
             (IndexOutOfRange (Z.of_nat (List.length (A ++ x :: M)))
                              (List.length (A ++ x :: M)))); [reflexivity|].
  unfold shift_between.
  replace ((putsteps.Current params =? 0)%Z && (putsteps.Origin params >? 0)%Z)
    with false by (symmetry; z_bool).
  rewrite (hbind_inl _ _ [] [] (A ++ x :: M)) by reflexivity.
  replace (putsteps.Current params >? putsteps.Origin params)%Z with true
    by (symmetry; z_bool).
  apply hbind_inr.
  pose proof (for_index_run
                (fun index => (index >? putsteps.Origin params)%Z
                              && (index <=? putsteps.Current params)%Z)
                (-1) Hupd (A ++ x :: M) [] []) as Hrun.
  cbn [List.length app] in Hrun. change (Z.of_nat 0) with 0%Z in Hrun.
  rewrite Hrun. clear Hrun.
  replace ((Z.of_nat (List.length (A ++ x :: M)) >? putsteps.Origin params)%Z
           && (Z.of_nat (List.length (A ++ x :: M)) <=? putsteps.Current params)%Z)
    with true
    by (rewrite length_app; cbn [List.length]; symmetry; z_bool).
  f_equal.
  replace (A ++ x :: M) with ((A ++ [x]) ++ M) by (rewrite <- app_assoc; reflexivity).
  rewrite written_where_app.
  destruct (where_none (fun index => (index >? putsteps.Origin params)%Z
                                     && (index <=? putsteps.Current params)%Z)
              (-1) (A ++ [x]) 0) as [_ HwA].
  { intros j Hj. rewrite length_app in Hj. cbn [List.length] in Hj. z_bool. }
  destruct (where_all (fun index => (index >? putsteps.Origin params)%Z
                                    && (index <=? putsteps.Current params)%Z)
              (-1) M (0 + Z.of_nat (List.length (A ++ [x])))) as [_ HwM].
  { intros j Hj. rewrite length_app in Hj. cbn [List.length] in Hj. z_bool. }
  rewrite HwA, HwM. reflexivity.
Qed.



(** ** PutSteps: what holds of every run *)

Lemma at_index_outside {C R A : Type} (xs : list A) (index : Z) (log : list C) :
  (index < 0 \/ Z.of_nat (List.length xs) <= index)%Z ->
  @at_index C R A xs index log = (log, inr (IndexOutOfRange index (List.length xs))).
Proof.
  intros Hout. unfold at_index.
  destruct (Z.leb_spec 0 index) as [Hpos | Hneg]; [|reflexivity].
  rewrite (proj2 (nth_error_None xs (Z.to_nat index))) by lia. reflexivity.
Qed.

Lemma at_index_cases {C R A : Type} (xs : list A) (index : Z) (log : list C) :
  (exists x, @at_index C R A xs index log = (log, inl x)) \/
  @at_index C R A xs index log = (log, inr (IndexOutOfRange index (List.length xs))).
Proof.
  unfold at_index. destruct (0 <=? index)%Z; [|right; reflexivity].
  destruct (nth_error xs (Z.to_nat index)) as [x|]; [left; exists x|right]; reflexivity.
Qed.

Lemma keeps_length_shift_step (delta : Z) (relations : list pivot.PipelineTaskPivot)
  (index : Z) :
  keeps_length (List.length relations) (shift_step delta relations index).
Proof.
  intros log. unfold shift_step.
  destruct (at_index_cases (C := pivot.PipelineTaskPivot) (R := StepsResponse)
              relations index log) as [[p Hp] | Hp].
  - rewrite (hbind_inl _ _ _ _ _ Hp). unfold hbind, Update.
    destruct (update_err (List.length log)); simpl; [reflexivity|].
    apply set_nth_length.
  - rewrite (hbind_inr _ _ _ _ _ Hp). reflexivity.
Qed.

Lemma keeps_length_bind (n : nat)
  (m : StepsHandler (list pivot.PipelineTaskPivot))
  (k : list pivot.PipelineTaskPivot -> StepsHandler (list pivot.PipelineTaskPivot)) :
  keeps_length n m ->
  (forall r, List.length r = n -> keeps_length n (k r)) ->
  keeps_length n (hbind m k).
Proof.
  intros Hm Hk log. unfold hbind. specialize (Hm log).
  destruct (m log) as [log' [r | e]]; simpl in *; [apply Hk, Hm | exact Hm].
Qed.

Lemma keeps_length_hret (relations : list pivot.PipelineTaskPivot) :
  keeps_length (List.length relations) (hret relations).
Proof. intros log. reflexivity. Qed.

Lemma keeps_length_for_index (guard : Z -> bool) (delta : Z) (iterations : nat) :
  forall (index : Z) (relations : list pivot.PipelineTaskPivot),
    keeps_length (List.length relations)
                 (for_index guard delta iterations index relations).
Proof.
  induction iterations as [|rounds IH]; intros index relations.
  - apply keeps_length_hret.
  - rewrite for_index_S. apply keeps_length_bind.
    + destruct (guard index); [apply keeps_length_shift_step | apply keeps_length_hret].
    + intros r Hr. rewrite <- Hr. apply IH.
Qed.

Lemma keeps_length_loop (c : bool) (guard : Z -> bool) (delta : Z) (iterations : nat)
  (relations : list pivot.PipelineTaskPivot) :
  keeps_length (List.length relations)
    (if c then for_index guard delta iterations 0 relations else hret relations).
Proof. destruct c; [apply keeps_length_for_index | apply keeps_length_hret]. Qed.

Lemma keeps_length_shift_between (params : putsteps.PutStepsRequest)
  (found : list pivot.PipelineTaskPivot) :
  keeps_length (List.length found) (shift_between params found).
Proof.
  unfold shift_between.
  apply keeps_length_bind; [apply keeps_length_loop|]. intros r1 H1.
  apply keeps_length_bind; [rewrite <- H1; apply keeps_length_loop|]. intros r2 H2.
  rewrite <- H2. apply keeps_length_loop.
Qed.

(** X10.  PutSteps never answers success to an [Origin] outside the list:
    for a negative [Origin] or one at or beyond the number of relations it
    leaves by a panic on an index out of range or, if a write was refused on
    the way, with the reordering's internal server error. *)
Theorem PutSteps_origin_outside_never_succeeds :
  forall (params : putsteps.PutStepsRequest) (relations : list pivot.PipelineTaskPivot),
    validate_PutSteps params = None ->
    find_relations (putsteps.PipelineId params) = (relations, None) ->
    (putsteps.Origin params < 0
     \/ Z.of_nat (List.length relations) <= putsteps.Origin params)%Z ->
    reorder_failed (snd (PutSteps (params, None))) = true.
Proof.
  intros params relations Hvalid Hfound Hout.
  unfold PutSteps. rewrite Hvalid, Hfound. unfold handle, reorder, hbind.
  pose proof (keeps_length_shift_between params relations []) as Hloops.
  destruct (shift_between params relations []) as [log [relations' | e]];
    simpl in Hloops.
  - unfold place, hbind. rewrite at_index_outside by (rewrite Hloops; exact Hout).
    reflexivity.
  - exact Hloops.
Qed.

Lemma all_accepted_but_last (log : list pivot.PipelineTaskPivot) :
  all_accepted log -> accepted_but_last log.
Proof. intros Hall k Hk. apply Hall. lia. Qed.

Lemma careful_hret {A : Type} (a : A) : careful (hret a).
Proof. intros log Hlog. exact Hlog. Qed.

Lemma careful_leaving {A : Type} (e : Exit StepsResponse) :
  careful (fun log => (log, @inr A _ e)).
Proof. intros log Hlog. split; [apply all_accepted_but_last, Hlog | intros _; exact Hlog]. Qed.

Lemma careful_bind {A B : Type} (m : StepsHandler A) (k : A -> StepsHandler B) :
  careful m -> (forall a, careful (k a)) -> careful (hbind m k).
Proof.
  intros Hm Hk log Hlog. unfold hbind. specialize (Hm log Hlog).
  destruct (m log) as [log' [a | e]]; simpl in *; [apply Hk, Hm | exact Hm].
Qed.

Lemma careful_at_index {A : Type} (xs : list A) (index : Z) :
  careful (at_index xs index).
Proof.
  unfold at_index. destruct (0 <=? index)%Z; [|apply careful_leaving].
  destruct (nth_error xs (Z.to_nat index)); [apply careful_hret | apply careful_leaving].
Qed.

(** A write whose error is checked: the handler goes on only when the store
    accepted it. *)
Lemma careful_checked_update {A : Type} (p : pivot.PipelineTaskPivot)
  (next : StepsHandler A) :
  careful next ->
  careful (hbind (Update p)
             (fun err =>
                match err with
                | Some e => hreturn (response.InternalServerError "排序失败" e)
                | None => next
                end)).
Proof.
  intros Hnext log Hlog. unfold hbind, Update.
  destruct (update_err (List.length log)) eqn:Herr.
  - simpl. split; [|discriminate].
    intros k Hk. apply Hlog. rewrite length_app in Hk. simpl in Hk. lia.
  - apply Hnext. intros k Hk. rewrite length_app in Hk. simpl in Hk.
    destruct (Nat.eq_dec k (List.length log)) as [-> | Hne]; [exact Herr|].
    apply Hlog. lia.
Qed.

Lemma careful_shift_step (delta : Z) (relations : list pivot.PipelineTaskPivot)
  (index : Z) :
  careful (shift_step delta relations index).
Proof.
  unfold shift_step. apply careful_bind; [apply careful_at_index|]. intros p.
  apply (careful_checked_update _ (hret _)), careful_hret.
Qed.

Lemma careful_for_index (guard : Z -> bool) (delta : Z) (iterations : nat) :
  forall (index : Z) (relations : list pivot.PipelineTaskPivot),
    careful (for_index guard delta iterations index relations).
Proof.
  induction iterations as [|rounds IH]; intros index relations.
  - apply careful_hret.
  - rewrite for_index_S. apply careful_bind; [|intros r; apply IH].
    destruct (guard index); [apply careful_shift_step | apply careful_hret].
Qed.

Lemma careful_loop (c : bool) (guard : Z -> bool) (delta : Z) (iterations : nat)
  (relations : list pivot.PipelineTaskPivot) :
  careful (if c then for_index guard delta iterations 0 relations else hret relations).
Proof. destruct c; [apply careful_for_index | apply careful_hret]. Qed.

Lemma careful_reorder (params : putsteps.PutStepsRequest)
  (found : list pivot.PipelineTaskPivot) :
  careful (reorder params found).
Proof.
  unfold reorder. apply careful_bind.
  - unfold shift_between.
    apply careful_bind; [apply careful_loop|]. intros r1.
    apply careful_bind; [apply careful_loop|]. intros r2.
    apply careful_loop.
  - intros relations. unfold place.
    apply careful_bind; [apply careful_at_index|]. intros moved.
    apply careful_checked_update. unfold respond_with_tasks.
    destruct (find_tasks _) as [tasks [err|]]; apply careful_leaving.
Qed.

(** X11.  PutSteps stops writing at the first refused write, and answers
    success only when every write was accepted: in any run, each write
    before the last was accepted by the store, and so was the last when the
    answer is success.  Writes made before a refusal are not taken back. *)
Theorem PutSteps_stops_at_first_refused_write :
  forall (read : putsteps.PutStepsRequest * option error) (k : nat),
    k < List.length (fst (PutSteps read)) ->
    S k < List.length (fst (PutSteps read))
    \/ is_success (snd (PutSteps read)) = true ->
    update_err k = None.
Proof.
  intros [params readErr] k Hk Hcase.
  assert (Hrun : accepted_but_last (fst (PutSteps (params, readErr))) /\
                 (is_success (snd (PutSteps (params, readErr))) = true ->
                  all_accepted (fst (PutSteps (params, readErr))))).
  { unfold PutSteps, handle.
    assert (Hnil : all_accepted []) by (intros j Hj; simpl in Hj; lia).
    destruct readErr as [err|]; [split; [intros j Hj; simpl in Hj; lia | intros _; exact Hnil]|].
    destruct (validate_PutSteps params);
      [split; [intros j Hj; simpl in Hj; lia | intros _; exact Hnil]|].
    destruct (find_relations (putsteps.PipelineId params)) as [found [err|]];
      [split; [intros j Hj; simpl in Hj; lia | intros _; exact Hnil]|].
    pose proof (careful_reorder params found [] Hnil) as Hcareful.
    destruct (reorder params found []) as [log [r | e]]; simpl in *.
    - split; [apply all_accepted_but_last, Hcareful | intros _; exact Hcareful].
    - exact Hcareful. }
  destruct Hrun as [Hlast Hall].
  destruct Hcase as [Hbefore | Hsuccess]; [apply Hlast, Hbefore | apply (Hall Hsuccess), Hk].
Qed.

(** ** Attaching tasks: GetTasks and the answer of PutSteps *)

Lemma find_last {A : Type} (f : A -> bool) (l : list A) (x : A) :
  find f (l ++ [x]) =
    match find f l with
    | Some y => Some y
    | None => if f x then Some x else None
    end.
Proof.
  induction l as [|y l IH]; simpl.
  - reflexivity.
  - destruct (f y); [reflexivity | exact IH].
Qed.

(** The inner loop leaves the last task of the list that carries the
    relation's [TaskId], and the relation as it was when there is none. *)
Lemma attach_task_last (tasks : list task.Task) (relation : pivot.PipelineTaskPivot) :
  attach_task tasks relation =
    match find (fun t => String.eqb (pivot.TaskId relation) (task.Id t)) (rev tasks) with
    | Some t => pivot.with_Task (Some t) relation
    | None => relation
    end.
Proof.
  unfold attach_task.
  set (f := fun (r : pivot.PipelineTaskPivot) (t : task.Task) =>
              if String.eqb (pivot.TaskId relation) (task.Id t)
              then pivot.with_Task (Some t) r else r).
  assert (Hgen : forall acc,
             pivot.with_Task (pivot.Task relation) acc = relation ->
             fold_left f tasks acc =
               match find (fun t => String.eqb (pivot.TaskId relation) (task.Id t))
                          (rev tasks) with
               | Some t => pivot.with_Task (Some t) relation
               | None => acc
               end).
  { induction tasks as [|t tasks IH]; intros acc Hacc.
    - reflexivity.
    - cbn [fold_left rev]. rewrite find_last. rewrite IH.
      + destruct (find _ (rev tasks)); [reflexivity|].
        unfold f. destruct (String.eqb (pivot.TaskId relation) (task.Id t));
          [|reflexivity].
        rewrite <- Hacc. reflexivity.
      + unfold f. destruct (String.eqb (pivot.TaskId relation) (task.Id t));
          [|exact Hacc].
        rewrite <- Hacc at 2. reflexivity. }
  apply Hgen. destruct relation. reflexivity.
Qed.

(** X12.  GetTasks on a pipeline whose relations and tasks are read without
    error: the answer lists the relations as the query returned them, in
    its order and with its steps; a relation has a task attached exactly
    when the task query returned one with its [TaskId], and then it is such
    a task.  A relation whose task is missing is answered without a task,
    and no error is raised. *)
Theorem GetTasks_attaches_matching_tasks :
  forall (id : string) (relations : list pivot.PipelineTaskPivot)
         (tasks : list task.Task),
    String.eqb id "" = false ->
    find_relations id = (relations, None) ->
    find_tasks (map pivot.TaskId relations) = (tasks, None) ->
    Forall (fun r => pivot.Task r = None) relations ->
    exists data,
      GetTasks id = response.Success "Successful" data /\
      map (pivot.with_Task None) data = relations /\
      Forall (fun d =>
                match pivot.Task d with
                | Some t => In t tasks /\ task.Id t = pivot.TaskId d
                | None =>
                    forallb (fun t => negb (String.eqb (pivot.TaskId d) (task.Id t)))
                            tasks = true
                end) data.
Proof.
  intros id relations tasks Hid Hfound Htasks Hbare.
  exists (attach tasks relations).
  split; [unfold GetTasks; rewrite Hid, Hfound, Htasks; reflexivity|].
  unfold attach. split.
  - rewrite map_map. rewrite <- (map_id relations) at 2.
    apply map_ext_in. intros r Hr. rewrite attach_task_last.
    rewrite Forall_forall in Hbare. specialize (Hbare r Hr).
    destruct (find _ (rev tasks)); destruct r; simpl in *; subst; reflexivity.
  - apply Forall_forall. intros d Hd. apply in_map_iff in Hd.
    destruct Hd as [r [Hd Hr]]. subst d. rewrite attach_task_last.
    rewrite Forall_forall in Hbare. specialize (Hbare r Hr).
    destruct (find (fun t => String.eqb (pivot.TaskId r) (task.Id t)) (rev tasks))
      as [t|] eqn:Hfind.
    + apply find_some in Hfind. destruct Hfind as [Hin Heq].
      cbn [pivot.with_Task pivot.Task pivot.TaskId]. split.
      * apply in_rev. exact Hin.
      * symmetry. apply String.eqb_eq. exact Heq.
    + rewrite Hbare. apply forallb_forall. intros t Ht.
      rewrite (find_none _ _ Hfind t) by (apply in_rev; rewrite rev_involutive; exact Ht).
      reflexivity.
Qed.

(** ** From the controller to the watchers *)

Lemma prefix_append (s t : string) : String.prefix s (s ++ t) = true.
Proof.
  induction s as [|c s IH]; simpl.
  - destruct t; reflexivity.
  - destruct (Ascii.ascii_dec c c) as [_ | Hne]; [exact IH | contradiction].
Qed.

Lemma snapshot_of_document (key doc : string) (p : models.Pipeline) :
  json_Unmarshal doc models.zero = (p, None) ->
  snapshot_phase [ {| mvccpb.Key := key; mvccpb.Value := doc |} ] =
    ([PushEvent {| Type_ := PUT; Pipeline := p |}], Done tt).
Proof.
  intros Hdoc. rewrite snapshot_phase_run. simpl.
  rewrite snapshot_entry_run. simpl. unfold decode_log, decoded.
  rewrite Hdoc. reflexivity.
Qed.

(** X13.  From Post to the snapshot of WatchPipelines.  When the request is
    read and validates and the relational store takes the pipeline, Post
    writes one document to etcd, whatever etcd and the audit log answer: the
    pipeline with its new identifier, at the key of that identifier under
    the pipeline namespace, which is the prefix WatchPipelines reads.  If
    decoding inverts encoding on that pipeline, a snapshot holding the entry
    pushes a PUT event for exactly the pipeline Post answered. *)
Theorem Post_document_is_pushed_by_snapshot :
  forall (p : models.Pipeline) (uuid uid doc : string) (put logged : option error),
    validate_Pipeline p = None ->
    json_Marshal (with_Id uuid p) = (doc, None) ->
    json_Unmarshal doc models.zero = (with_Id uuid p, None) ->
    etcd_puts (fst (Post (p, None) uuid uid None put logged)) =
      [(pipeline_key uuid, doc)] /\
    String.prefix (config.Pipeline Conf) (pipeline_key uuid) = true /\
    snapshot_phase [ {| mvccpb.Key := pipeline_key uuid; mvccpb.Value := doc |} ] =
      ([PushEvent {| Type_ := PUT; Pipeline := with_Id uuid p |}], Done tt).
Proof.
  intros p uuid uid doc put logged Hvalid Hdoc Hback.
  split; [|split].
  - unfold Post, handle. rewrite Hvalid. unfold hbind, perform. simpl.
    rewrite Hdoc. destruct put, logged; reflexivity.
  - apply prefix_append.
  - apply snapshot_of_document, Hback.
Qed.

(** X14.  From PostNodes to the streaming loop of WatchPipelines.  When the
    binding succeeds in the relational store, PostNodes writes the pipeline
    with the requested nodes at the pipeline's key; if decoding inverts
    encoding on it, the put-type change of that entry makes a node push one
    PUT event per occurrence of its identifier among the requested nodes.
    A node that is not among them, one just taken off included, pushes
    nothing. *)
Theorem PostNodes_reaches_the_listed_nodes :
  forall (params : bindnode.BindNodeRequest) (row : models.Pipeline) (doc local : string)
         (put : option error) (prev : option mvccpb.KeyValue),
    validate_BindNode params = None ->
    json_Marshal (with_Nodes (bindnode.NodesId params) row) = (doc, None) ->
    json_Unmarshal doc models.zero = (with_Nodes (bindnode.NodesId params) row, None) ->
    etcd_puts (fst (PostNodes (params, None) None None (row, None) put)) =
      [(pipeline_key (models.Id row), doc)] /\
    pushed (fst (on_event local
      {| mvccpb.Type_ := mvccpb.PUT;
         mvccpb.Kv := {| mvccpb.Key := pipeline_key (models.Id row); mvccpb.Value := doc |};
         mvccpb.PrevKv := prev |})) =
      repeat {| Type_ := PUT; Pipeline := with_Nodes (bindnode.NodesId params) row |}
             (count_occ string_dec (bindnode.NodesId params) local).
Proof.
  intros params row doc local put prev Hvalid Hdoc Hback. split.
  - unfold PostNodes, handle. rewrite Hvalid. unfold hbind, perform. simpl.
    rewrite Hdoc. destruct put; reflexivity.
  - rewrite on_event_put. cbn [fst mvccpb.Value].
    rewrite pushed_app, pushed_decode_log, pushed_repeat.
    unfold decoded. rewrite Hback. reflexivity.
Qed.


(** X16.  Every handler addresses etcd at the key of its own pipeline only,
    whatever the stores answer: Post at the key of the new identifier, PutBy
    and DeleteBy at the key of the identifier in the URL, PostNodes at the
    key of the pipeline it read back.  So DeleteBy removes the entry that
    Post and PutBy write for the same identifier. *)
Theorem handlers_address_their_pipeline_key :
  forall (read : models.Pipeline * option error) (id uid : string)
         (bind : bindnode.BindNodeRequest * option error) (got : models.Pipeline * option error)
         (a b c : option error),
    Forall (eq (pipeline_key id)) (etcd_keys (fst (Post read id uid a b c))) /\
    Forall (eq (pipeline_key id)) (etcd_keys (fst (PutBy id read a b))) /\
    etcd_keys (fst (DeleteBy id a b)) = [pipeline_key id] /\
    Forall (eq (pipeline_key (models.Id (fst got))))
           (etcd_keys (fst (PostNodes bind a b got c))).
Proof.
  intros [p readErr] id uid [params bindErr] [row gotErr] a b c.
  repeat split.
  - unfold Post, handle. destruct readErr; [constructor|].
    destruct (validate_Pipeline p); [constructor|].
    unfold hbind, perform. simpl. destruct a; [constructor|].
    destruct (json_Marshal (with_Id id p)) as [doc [m|]];
      destruct b, c; simpl; repeat constructor.
  - unfold PutBy, handle. destruct readErr; [constructor|].
    destruct (validate_Pipeline p); [constructor|].
    unfold hbind, perform. simpl. destruct a; [constructor|].
    destruct (json_Marshal (with_Id id p)) as [doc [m|]];
      destruct b; simpl; repeat constructor.
  - unfold DeleteBy, handle, hbind, perform. simpl. destruct a, b; reflexivity.
  - unfold PostNodes, handle. destruct bindErr; [constructor|].
    destruct (validate_BindNode params); [constructor|].
    unfold hbind, perform. simpl. destruct a; [constructor|].
    destruct b; [constructor|]. simpl. destruct gotErr; [constructor|].
    destruct (json_Marshal (with_Nodes (bindnode.NodesId params) row)) as [doc [m|]];
      destruct c; simpl; repeat constructor.
Qed.

(** X17.  From PostKiller to WatchKiller.  The marker PostKiller writes
    carries the pipeline identifier in its key only; its value is the word
    [pipeline], which is no JSON document.  So when decoding rejects that
    word and leaves the destination untouched, the put-type change of the
    marker makes WatchKiller log the decoding error and then a registration
    with an empty identifier: the identifier of the pipeline to kill does
    not reach what the watcher does. *)
Theorem kill_marker_reaches_the_watcher_without_identifier :
  forall (params : KillPipelineRequest) (res : clientv3.LeaseGrantResponse)
         (grantErr put : option error) (prev : option mvccpb.KeyValue) (e : error),
    validate_Struct params = None ->
    json_Unmarshal "pipeline" models.zero = (models.zero, Some e) ->
    exists key val,
      store_calls (fst (PostKiller (params, None) (Some res, grantErr) put)) =
        [ClientGrant 2; ClientPut key val [clientv3.WithLease (clientv3.ID res)]] /\
      key = (config.Killer Conf ++ "/" ++ PipelineId params)%string /\
      killer_event {| mvccpb.Type_ := mvccpb.PUT;
                      mvccpb.Kv := {| mvccpb.Key := key; mvccpb.Value := val |};
                      mvccpb.PrevKv := prev |} =
        ([LogPrintln e; LogPrintf registered_format ""], Done tt).
Proof.
  intros params res grantErr put prev e Hvalid Hword.
  exists (config.Killer Conf ++ "/" ++ PipelineId params)%string, "pipeline".
  split; [|split; [reflexivity|]].
  - rewrite (PostKiller_granted params res grantErr put Hvalid).
    destruct grantErr, put; reflexivity.
  - rewrite killer_event_run. cbn [mvccpb.Kv mvccpb.Value mvccpb.Type_].
    unfold decode_log, decoded. rewrite Hword. reflexivity.
Qed.

(** ** Moving a relation and moving it back *)

Lemma move_map {A B : Type} (f : A -> B) (origin current : nat) (l : list A) :
  move origin current (map f l) = map f (move origin current l).
Proof.
  unfold move. rewrite nth_error_map.
  destruct (nth_error l origin) as [x|]; cbn [option_map]; [|reflexivity].
  rewrite firstn_map, skipn_map, <- map_app, firstn_map, skipn_map.
  rewrite map_app. reflexivity.
Qed.

Lemma move_length {A : Type} (origin current : nat) (l : list A) :
  origin < List.length l -> current < List.length l ->
  List.length (move origin current l) = List.length l.
Proof.
  intros Ho Hc.
  destruct (Nat.le_gt_cases origin current) as [Hdown | Hup].
  - destruct (split_down l origin current) as [P [x [M [Q [Hl [HP HM]]]]]]; [lia|].
    subst l. replace origin with (List.length P) by lia.
    replace current with (List.length P + List.length M) by lia.
    rewrite move_down. rewrite !length_app. simpl. rewrite !length_app. simpl. lia.
  - destruct (split_up l current origin) as [P [M [x [Q [Hl [HP HM]]]]]]; [lia|].
    subst l. replace current with (List.length P) by lia.
    replace origin with (List.length P + List.length M) by lia.
    rewrite move_up. rewrite !length_app. simpl. rewrite !length_app. simpl. lia.
Qed.

Lemma move_back {A : Type} (origin current : nat) (l : list A) :
  origin < List.length l -> current < List.length l ->
  move current origin (move origin current l) = l.
Proof.
  intros Ho Hc.
  destruct (Nat.le_gt_cases origin current) as [Hdown | Hup].
  - destruct (split_down l origin current) as [P [x [M [Q [Hl [HP HM]]]]]]; [lia|].
    subst l. replace origin with (List.length P) by lia.
    replace current with (List.length P + List.length M) by lia.
    rewrite move_down. apply move_up.
  - destruct (split_up l current origin) as [P [M [x [Q [Hl [HP HM]]]]]]; [lia|].
    subst l. replace current with (List.length P) by lia.
    replace origin with (List.length P + List.length M) by lia.
    rewrite move_up. apply move_down.
Qed.

Lemma erase_renumber (l : list pivot.PipelineTaskPivot) :
  forall k, map erase_Step (renumber k l) = map erase_Step l.
Proof. induction l as [|p l IH]; intros k; simpl; [|rewrite IH]; reflexivity. Qed.

Lemma renumber_erased (l l' : list pivot.PipelineTaskPivot) :
  map erase_Step l = map erase_Step l' ->
  forall k, renumber k l = renumber k l'.
Proof.
  revert l'. induction l as [|p l IH]; intros [|q l'] Heq k; try discriminate Heq.
  - reflexivity.
  - simpl in Heq. injection Heq as Hp Hq Hr Hs Hl. simpl.
    rewrite (IH l') by exact Hl. f_equal.
    destruct p, q. simpl in *. subst. reflexivity.
Qed.

(** Moving back, over the relations a move left, gives the relations the
    move started from. *)
Lemma renumber_move_back (origin current : nat) (l : list pivot.PipelineTaskPivot) :
  origin < List.length l -> current < List.length l ->
  numbered 1 l ->
  renumber 1 (move current origin (renumber 1 (move origin current l))) = l.
Proof.
  intros Ho Hc Hnum.
  rewrite <- (renumber_numbered l 1 Hnum) at 2.
  apply renumber_erased.
  rewrite <- move_map, erase_renumber, <- move_map.
  apply move_back; rewrite length_map; assumption.
Qed.
End Ects.

(** ** Concrete runs *)

(** The scenario of the spec on node [n1]: the store holds [A] (bound to
    [n1]) and [B] (bound to [n2]); then [B] is rebound to [n1] and [n2], and
    [A] is deleted. *)
Example scenario_n1 :
  pushed (fst (WatchPipelines sample_conf sample_Unmarshal "n1" (Some sample_snapshot, None)
    [ {| clientv3.Events :=
           [ {| mvccpb.Type_ := mvccpb.PUT;
                mvccpb.Kv := kv "/ects/pipelines/B" "enc(B')";
                mvccpb.PrevKv := Some (kv "/ects/pipelines/B" "enc(B)") |} ] |};
      {| clientv3.Events :=
           [ {| mvccpb.Type_ := mvccpb.DELETE;
                mvccpb.Kv := kv "/ects/pipelines/A" "";
                mvccpb.PrevKv := Some (kv "/ects/pipelines/A" "enc(A)") |} ] |} ])) =
    [ {| Type_ := PUT; Pipeline := pipeline_A |};
      {| Type_ := PUT; Pipeline := pipeline_B |};
      {| Type_ := PUT; Pipeline := pipeline_B' |};
      {| Type_ := DEL; Pipeline := pipeline_A |} ].
Proof. reflexivity. Qed.

(** A pipeline without nodes: pushed by the snapshot, silent as a later
    put-type change. *)
Example empty_nodes_asymmetry :
  pushed (fst (snapshot_phase sample_Unmarshal [kv "/ects/pipelines/E" "enc(E)"])) =
    [ {| Type_ := PUT; Pipeline := pipeline_E |} ] /\
  pushed (fst (on_event sample_Unmarshal "n1"
    {| mvccpb.Type_ := mvccpb.PUT; mvccpb.Kv := kv "/ects/pipelines/E" "enc(E)";
       mvccpb.PrevKv := None |})) = [].
Proof. split; reflexivity. Qed.

(** [C] names [n1] twice: two PUT events on [n1]. *)
Example twice_listed_twice_pushed :
  pushed (fst (on_event sample_Unmarshal "n1"
    {| mvccpb.Type_ := mvccpb.PUT; mvccpb.Kv := kv "/ects/pipelines/C" "enc(C)";
       mvccpb.PrevKv := None |})) =
    [ {| Type_ := PUT; Pipeline := pipeline_C |}; {| Type_ := PUT; Pipeline := pipeline_C |} ].
Proof. reflexivity. Qed.

(** C2 at [n1] and the pipeline [B], which is bound to [n2] only. *)
Lemma C2_witness :
  (pushed (fst (on_event sample_Unmarshal "n1"
     {| mvccpb.Type_ := mvccpb.PUT; mvccpb.Kv := kv "/ects/pipelines/B" "enc(B)";
        mvccpb.PrevKv := None |})) = []
   /\ snd (on_event sample_Unmarshal "n1"
     {| mvccpb.Type_ := mvccpb.PUT; mvccpb.Kv := kv "/ects/pipelines/B" "enc(B)";
        mvccpb.PrevKv := None |}) = Done tt)
  /\
  (pushed (fst (on_event sample_Unmarshal "n1"
     {| mvccpb.Type_ := mvccpb.DELETE; mvccpb.Kv := kv "/ects/pipelines/B" "";
        mvccpb.PrevKv := Some (kv "/ects/pipelines/B" "enc(B)") |})) =
     [ {| Type_ := DEL; Pipeline := pipeline_B |} ]
   /\ snd (on_event sample_Unmarshal "n1"
     {| mvccpb.Type_ := mvccpb.DELETE; mvccpb.Kv := kv "/ects/pipelines/B" "";
        mvccpb.PrevKv := Some (kv "/ects/pipelines/B" "enc(B)") |}) = Done tt).
Proof.
  apply (C2_put_filtered_delete_unfiltered sample_Unmarshal "n1"
           (kv "/ects/pipelines/B" "enc(B)") (kv "/ects/pipelines/B" "")
           (kv "/ects/pipelines/B" "enc(B)") None).
  simpl. intros [H | []]. discriminate H.
Defined.

(** C3 at a snapshot read of revision 41. *)
Lemma C3_witness :
  watches (fst (WatchPipelines sample_conf sample_Unmarshal "n1"
                  (Some sample_snapshot, None) [])) =
    [ ClientWatch "/ects/pipelines"
        [clientv3.WithPrefix; clientv3.WithRev 42; clientv3.WithPrevKV] ].
Proof.
  apply (C3_watch_from_next_revision sample_conf sample_Unmarshal "n1" sample_snapshot []).
  unfold int64_min, int64_max. simpl. lia.
Defined.

(** C4 at [enc(D)], whose decoding fails after the nodes were filled in. *)
Lemma C4_witness :
  snapshot_phase sample_Unmarshal [kv "/ects/pipelines/D" "enc(D)"] =
    ([ LogPrintln "json: cannot unmarshal number into Go struct field";
       PushEvent {| Type_ := PUT;
                    Pipeline := {| models.Id := "D"; models.Tasks := [];
                                   models.Nodes := ["n1"] |} |} ], Done tt)
  /\
  on_event sample_Unmarshal "n1"
    {| mvccpb.Type_ := mvccpb.DELETE; mvccpb.Kv := kv "/ects/pipelines/D" "";
       mvccpb.PrevKv := Some (kv "/ects/pipelines/D" "enc(D)") |} =
    ([ LogPrintln "json: cannot unmarshal number into Go struct field";
       PushEvent {| Type_ := DEL;
                    Pipeline := {| models.Id := "D"; models.Tasks := [];
                                   models.Nodes := ["n1"] |} |} ], Done tt)
  /\
  on_event sample_Unmarshal "n1"
    {| mvccpb.Type_ := mvccpb.PUT; mvccpb.Kv := kv "/ects/pipelines/D" "enc(D)";
       mvccpb.PrevKv := None |} =
    ([ LogPrintln "json: cannot unmarshal number into Go struct field";
       PushEvent {| Type_ := PUT;
                    Pipeline := {| models.Id := "D"; models.Tasks := [];
                                   models.Nodes := ["n1"] |} |} ], Done tt).
Proof.
  apply (C4_decoding_failure_logged_not_skipped sample_Unmarshal "n1" "/ects/pipelines/D"
           "enc(D)"
           {| models.Id := "D"; models.Tasks := []; models.Nodes := ["n1"] |}
           "json: cannot unmarshal number into Go struct field"
           [] (kv "/ects/pipelines/D" "") None).
  reflexivity.
Defined.

(** C4 as the spec has it, on a value that is no JSON at all: the snapshot
    loop and a delete-type change each push an event for the entry, with the
    zero pipeline. *)
Lemma C4_counterexample :
  sample_Unmarshal "not json" models.zero =
    (models.zero, Some "unexpected end of JSON input")
  /\
  pushed (fst (snapshot_phase sample_Unmarshal [kv "/ects/pipelines/X" "not json"])) =
    [ {| Type_ := PUT; Pipeline := models.zero |} ]
  /\
  pushed (fst (on_event sample_Unmarshal "n1"
    {| mvccpb.Type_ := mvccpb.DELETE; mvccpb.Kv := kv "/ects/pipelines/X" "";
       mvccpb.PrevKv := Some (kv "/ects/pipelines/X" "not json") |})) =
    [ {| Type_ := DEL; Pipeline := models.zero |} ].
Proof. repeat split. Qed.

(** C5 at a store that refuses two reads and answers the third. *)
Lemma C5_witness :
  WatchPipelines sample_conf sample_Unmarshal "n1"
    (None, Some "context deadline exceeded") [] =
    ([ClientGet "/ects/pipelines" [clientv3.WithPrefix]],
     Panicked (PanicErr "context deadline exceeded"))
  /\
  killer_bootstrap sample_conf 3 sample_gets 0 =
    (repeat (ClientGet "/ects/pipelines" [clientv3.WithPrefix]) 3, Done 42%Z)
  /\
  (exists (opts : list clientv3.OpOption) (rest : list Call),
     WatchKiller sample_conf sample_Unmarshal 3 sample_gets [] =
       (repeat (ClientGet "/ects/pipelines" [clientv3.WithPrefix]) 3
          ++ ClientWatch "" opts :: rest, Done tt))
  /\
  (forall (budget : nat),
     WatchKiller sample_conf sample_Unmarshal budget
       (fun _ => (None, Some "context deadline exceeded")) [] =
       (repeat (ClientGet "/ects/pipelines" [clientv3.WithPrefix]) budget, StillLooping)).
Proof.
  apply (C5_bootstrap_failure_fatal_or_retried sample_conf sample_Unmarshal "n1"
           "context deadline exceeded" None sample_gets sample_snapshot 2 3 []).
  - intros i Hi. destruct i as [|[|i]]; [reflexivity | reflexivity | lia].
  - reflexivity.
  - lia.
Defined.

(** C6 at a store that grants lease 7 and refuses the write. *)
Lemma C6_witness :
  snd (PostKiller sample_conf sample_validate sample_message_Get (sample_request, None)
         (Some {| clientv3.ID := 7 |}, None) (Some "etcdserver: request timed out")) =
    Done (Success "" [])
  /\
  fst (PostKiller sample_conf sample_validate sample_message_Get (sample_request, None)
         (Some {| clientv3.ID := 7 |}, None) (Some "etcdserver: request timed out")) =
    [ ClientGrant 2;
      ClientPut "/ects/killer/0b5ad9d2-7e0c-4c0b-9a57-6a1f4f3c2d10" "pipeline"
        [clientv3.WithLease 7] ]
    ++ [ LogPrintln "etcdserver: request timed out" ].
Proof.
  apply (C6_write_failure_is_logged_not_reported sample_conf sample_validate
           sample_message_Get sample_request {| clientv3.ID := 7 |}
           (Some "etcdserver: request timed out")).
  reflexivity.
Defined.

(** C6 as the spec has it: the store refuses the write and the caller is
    told of success. *)
Lemma C6_counterexample :
  PostKiller sample_conf sample_validate sample_message_Get (sample_request, None)
    (Some {| clientv3.ID := 7 |}, None) (Some "etcdserver: request timed out") =
    ([ ClientGrant 2;
       ClientPut "/ects/killer/0b5ad9d2-7e0c-4c0b-9a57-6a1f4f3c2d10" "pipeline"
         [clientv3.WithLease 7];
       LogPrintln "etcdserver: request timed out" ],
     Done (Success "" [])).
Proof. reflexivity. Qed.

(** C7 at a store that grants lease 7. *)
Lemma C7_witness :
  store_calls (fst (PostKiller sample_conf sample_validate sample_message_Get
                      (sample_request, None) (Some {| clientv3.ID := 7 |}, None) None)) =
    [ ClientGrant 2;
      ClientPut "/ects/killer/0b5ad9d2-7e0c-4c0b-9a57-6a1f4f3c2d10" "pipeline"
        [clientv3.WithLease 7] ].
Proof.
  apply (C7_lease_ttl_2_and_marker_key sample_conf sample_validate sample_message_Get
           sample_request {| clientv3.ID := 7 |} None None).
  reflexivity.
Defined.

(** C8 as the spec has it, at the deletion of [A]: the spec's watcher works
    on [A], decoded from the previous value, and takes it out of a registry
    that holds it; the code decodes the empty current value, logs the error
    and reports the empty identifier as offline. *)
Lemma C8_counterexample :
  spec_killer_record sample_Unmarshal
    {| mvccpb.Type_ := mvccpb.DELETE; mvccpb.Kv := kv "/ects/killer/A" "";
       mvccpb.PrevKv := Some (kv "/ects/killer/A" "enc(A)") |} = Some pipeline_A
  /\
  spec_registry_step sample_Unmarshal ["A"; "B"]
    {| mvccpb.Type_ := mvccpb.DELETE; mvccpb.Kv := kv "/ects/killer/A" "";
       mvccpb.PrevKv := Some (kv "/ects/killer/A" "enc(A)") |} = ["B"]
  /\
  killer_event sample_Unmarshal
    {| mvccpb.Type_ := mvccpb.DELETE; mvccpb.Kv := kv "/ects/killer/A" "";
       mvccpb.PrevKv := Some (kv "/ects/killer/A" "enc(A)") |} =
    ([ LogPrintln "unexpected end of JSON input"; LogPrintf offline_format "" ], Done tt).
Proof. repeat split. Qed.

(** C9 at a store that refuses two reads and answers the third at
    revision 41. *)
Lemma C9_witness :
  store_calls (fst (WatchKiller sample_conf sample_Unmarshal 3 sample_gets [])) =
    repeat (ClientGet "/ects/pipelines" [clientv3.WithPrefix]) 3
      ++ [ ClientWatch "" [clientv3.WithPrefix; clientv3.WithRev 42] ].
Proof.
  apply (C9_killer_reads_pipeline_prefix_watches_all sample_conf sample_Unmarshal
           sample_gets sample_snapshot 2 3 []).
  - intros i Hi. destruct i as [|[|i]]; [reflexivity | reflexivity | lia].
  - reflexivity.
  - lia.
  - unfold int64_min, int64_max. simpl. lia.
Defined.

(** C9 as the spec has it: with the pipeline namespace at [/ects/pipelines],
    the snapshot read of WatchKiller is a prefix read of that namespace, not
    of the empty key. *)
Lemma C9_counterexample :
  store_calls (fst (WatchKiller sample_conf sample_Unmarshal 1
                      (fun _ => (Some sample_snapshot, None)) [])) =
    [ ClientGet "/ects/pipelines" [clientv3.WithPrefix];
      ClientWatch "" [clientv3.WithPrefix; clientv3.WithRev 42] ]
  /\ String.eqb "/ects/pipelines" "" = false.
Proof. split; reflexivity. Qed.

(** ** Concrete runs of the watchers, continued *)

(** The two batches of the scenario on node [n1]. *)
Lemma streaming_in_order_witness :
  streaming_phase sample_Unmarshal "n1" sample_batches =
    ([ PushEvent {| Type_ := PUT; Pipeline := pipeline_B' |}; TimeSleep 1;
       PushEvent {| Type_ := DEL; Pipeline := pipeline_A |}; TimeSleep 1 ],
     Done tt).
Proof.
  rewrite (streaming_in_order_one_pause_per_batch sample_Unmarshal "n1" sample_batches
             eq_refl).
  reflexivity.
Defined.

(** After the scenario's batches, a batch of three changes whose second is a
    deletion without previous value, and one more batch. *)
Lemma streaming_stops_witness :
  streaming_phase sample_Unmarshal "n1"
    (sample_batches
       ++ {| clientv3.Events :=
               [ sample_put "/ects/pipelines/A" "enc(A)" ]
                 ++ {| mvccpb.Type_ := mvccpb.DELETE;
                       mvccpb.Kv := kv "/ects/pipelines/B" "";
                       mvccpb.PrevKv := None |}
                 :: [ sample_put "/ects/pipelines/C" "enc(C)" ] |}
       :: [ {| clientv3.Events := [ sample_put "/ects/pipelines/A" "enc(A)" ] |} ]) =
    ([ PushEvent {| Type_ := PUT; Pipeline := pipeline_B' |}; TimeSleep 1;
       PushEvent {| Type_ := DEL; Pipeline := pipeline_A |}; TimeSleep 1;
       PushEvent {| Type_ := PUT; Pipeline := pipeline_A |} ],
     Panicked NilDereference).
Proof.
  rewrite (streaming_stops_at_deletion_without_previous_value sample_Unmarshal "n1"
             sample_batches
             [ {| clientv3.Events := [ sample_put "/ects/pipelines/A" "enc(A)" ] |} ]
             [ sample_put "/ects/pipelines/A" "enc(A)" ]
             [ sample_put "/ects/pipelines/C" "enc(C)" ]
             (kv "/ects/pipelines/B" "") eq_refl eq_refl).
  reflexivity.
Defined.

(** Two stores that differ in the entries they return only. *)
Lemma WatchKiller_ignores_witness :
  WatchKiller sample_conf sample_Unmarshal 3 sample_gets [] =
  WatchKiller sample_conf sample_Unmarshal 3
    (fun i => if Nat.ltb i 2 then (None, Some "context deadline exceeded")
              else (Some {| clientv3.Header := {| clientv3.Revision := 41 |};
                            clientv3.Kvs := [] |}, None)) [].
Proof.
  apply WatchKiller_ignores_snapshot_entries.
  - intros i. unfold sample_gets. destruct (Nat.ltb i 2); reflexivity.
  - intros i. unfold sample_gets. destruct (Nat.ltb i 2); reflexivity.
Defined.

(** ** PutSteps: a move and the move back *)

(** X19.  A move and the move back.  Over relations numbered from 1, with
    both positions inside the list and no call of the store failing:
    PutSteps from [Origin] to [Current] answers the moved list; and PutSteps
    with the two positions exchanged, over the relations as that move left
    them (those of its answer, without the tasks), answers the relations the
    first request started from, in their order and with their steps. *)
Theorem PutSteps_moving_back_restores :
  forall (message_Get : string -> ValidationErrors -> string)
         (validate_PutSteps : putsteps.PutStepsRequest -> option ValidationErrors)
         (before after : string -> list pivot.PipelineTaskPivot * option error)
         (update_err : nat -> option error)
         (find_tasks : list string -> list task.Task * option error)
         (sort_Slice : list pivot.PipelineTaskPivot -> list pivot.PipelineTaskPivot)
         (there back : putsteps.PutStepsRequest)
         (relations : list pivot.PipelineTaskPivot) (tasks moved_tasks : list task.Task),
    (forall k, update_err k = None) ->
    sorts_by_step sort_Slice ->
    validate_PutSteps there = None ->
    validate_PutSteps back = None ->
    numbered 1 relations ->
    (0 <= putsteps.Origin there < Z.of_nat (List.length relations))%Z ->
    (0 <= putsteps.Current there < Z.of_nat (List.length relations))%Z ->
    (Z.of_nat (List.length relations) <= int64_max)%Z ->
    putsteps.Origin back = putsteps.Current there ->
    putsteps.Current back = putsteps.Origin there ->
    before (putsteps.PipelineId there) = (relations, None) ->
    after (putsteps.PipelineId back) =
      (renumber 1 (move (Z.to_nat (putsteps.Origin there))
                        (Z.to_nat (putsteps.Current there)) relations), None) ->
    find_tasks (map pivot.TaskId
                  (move (Z.to_nat (putsteps.Origin there))
                        (Z.to_nat (putsteps.Current there)) relations)) =
      (moved_tasks, None) ->
    find_tasks (map pivot.TaskId relations) = (tasks, None) ->
    snd (PutSteps message_Get validate_PutSteps before update_err find_tasks sort_Slice
           (there, None)) =
      Return (response.Success "Successful"
                (attach moved_tasks
                   (renumber 1 (move (Z.to_nat (putsteps.Origin there))
                                     (Z.to_nat (putsteps.Current there)) relations)))) /\
    snd (PutSteps message_Get validate_PutSteps after update_err find_tasks sort_Slice
           (back, None)) =
      Return (response.Success "Successful" (attach tasks relations)).
Proof.
  intros message_Get validate_PutSteps before after update_err find_tasks sort_Slice
         there back relations tasks moved_tasks
         Hupd Hsort Hthere Hback Hnum Horigin Hcurrent Hlen HO HC
         Hbefore Hafter Hmoved Htasks.
  set (o := Z.to_nat (putsteps.Origin there)) in *.
  set (c := Z.to_nat (putsteps.Current there)) in *.
  assert (Ho : o < List.length relations) by (subst o; lia).
  assert (Hc : c < List.length relations) by (subst c; lia).
  assert (Hsize : List.length (renumber 1 (move o c relations)) = List.length relations)
    by (rewrite renumber_length; apply move_length; assumption).
  split.
  - destruct (PutSteps_in_range message_Get validate_PutSteps before update_err
                find_tasks sort_Slice there relations moved_tasks
                Hupd Hsort Hthere Hbefore Hnum Horigin Hcurrent Hlen Hmoved)
      as [written [Hrun _]].
    rewrite Hrun. reflexivity.
  - destruct (PutSteps_in_range message_Get validate_PutSteps after update_err
                find_tasks sort_Slice back (renumber 1 (move o c relations)) tasks)
      as [written [Hrun _]]; try assumption.
    + apply numbered_renumber.
    + rewrite Hsize, HO. exact Hcurrent.
    + rewrite Hsize, HC. exact Horigin.
    + rewrite Hsize. exact Hlen.
    + rewrite HO, HC. fold o c.
      rewrite <- move_map, map_TaskId_renumber, <- move_map.
      rewrite move_back by (rewrite length_map; assumption).
      exact Htasks.
    + rewrite Hrun. cbn [snd]. rewrite HO, HC. fold o c.
      rewrite (renumber_move_back o c relations Ho Hc Hnum). reflexivity.
Qed.

(** ** Concrete runs of PutSteps and GetTasks *)

Lemma sample_insert_perm (p : pivot.PipelineTaskPivot) (l : list pivot.PipelineTaskPivot) :
  Permutation (sample_insert p l) (p :: l).
Proof.
  induction l as [|q l IH]; simpl.
  - reflexivity.
  - destruct (pivot.Step p <=? pivot.Step q)%Z; [reflexivity|].
    rewrite IH. apply perm_swap.
Qed.

Lemma sample_insert_sorted (p : pivot.PipelineTaskPivot) (l : list pivot.PipelineTaskPivot) :
  StronglySorted (fun a b => (pivot.Step a <= pivot.Step b)%Z) l ->
  StronglySorted (fun a b => (pivot.Step a <= pivot.Step b)%Z) (sample_insert p l).
Proof.
  induction l as [|q l IH]; intros Hl; simpl.
  - repeat constructor.
  - apply StronglySorted_inv in Hl. destruct Hl as [Hl Hq].
    destruct (Z.leb_spec (pivot.Step p) (pivot.Step q)) as [Hle | Hgt].
    + constructor; [constructor; assumption|].
      constructor; [exact Hle|].
      apply (Forall_impl _ (P := fun b => (pivot.Step q <= pivot.Step b)%Z));
        [intros b Hb; lia | exact Hq].
    + constructor; [apply IH, Hl|].
      eapply Permutation_Forall; [apply Permutation_sym, sample_insert_perm|].
      constructor; [lia | exact Hq].
Qed.

Lemma sample_sort_sorts : sorts_by_step sample_sort.
Proof.
  intros l. induction l as [|p l [IHperm IHsorted]]; simpl.
  - split; constructor.
  - split.
    + rewrite sample_insert_perm. constructor. exact IHperm.
    + apply sample_insert_sorted, IHsorted.
Qed.

(** The first of four relations is dragged to the third place: the run of
    the model itself. *)
Example PutSteps_first_to_third :
  PutSteps sample_message_Get sample_validate_steps sample_find_relations
    sample_update_ok sample_find_tasks sample_sort (steps_request 0 2, None) =
    ([ sample_relation "r2" "t2" 1; sample_relation "r3" "t3" 2;
       sample_relation "r1" "t1" 3 ],
     Return (response.Success "Successful"
       [ pivot.with_Task (Some {| task.Id := "t2"; task.Name := "test" |})
           (sample_relation "r2" "t2" 1);
         pivot.with_Task (Some {| task.Id := "t3"; task.Name := "pack" |})
           (sample_relation "r3" "t3" 2);
         pivot.with_Task (Some {| task.Id := "t1"; task.Name := "build" |})
           (sample_relation "r1" "t1" 3);
         pivot.with_Task (Some {| task.Id := "t4"; task.Name := "ship" |})
           (sample_relation "r4" "t4" 4) ])).
Proof. reflexivity. Qed.

(** The last of four relations is dragged to the second place. *)
Example PutSteps_last_to_second :
  PutSteps sample_message_Get sample_validate_steps sample_find_relations
    sample_update_ok sample_find_tasks sample_sort (steps_request 3 1, None) =
    ([ sample_relation "r2" "t2" 3; sample_relation "r3" "t3" 4;
       sample_relation "r4" "t4" 2 ],
     Return (response.Success "Successful"
       [ pivot.with_Task (Some {| task.Id := "t1"; task.Name := "build" |})
           (sample_relation "r1" "t1" 1);
         pivot.with_Task (Some {| task.Id := "t4"; task.Name := "ship" |})
           (sample_relation "r4" "t4" 2);
         pivot.with_Task (Some {| task.Id := "t2"; task.Name := "test" |})
           (sample_relation "r2" "t2" 3);
         pivot.with_Task (Some {| task.Id := "t3"; task.Name := "pack" |})
           (sample_relation "r3" "t3" 4) ])).
Proof. reflexivity. Qed.

Lemma sample_relations_numbered : numbered 1 sample_relations.
Proof. simpl. repeat split. Qed.

Lemma PutSteps_moves_witness :
  snd (PutSteps sample_message_Get sample_validate_steps sample_find_relations
         sample_update_ok sample_find_tasks sample_sort (steps_request 3 1, None)) =
    Return (response.Success "Successful"
      [ pivot.with_Task (Some {| task.Id := "t1"; task.Name := "build" |})
          (sample_relation "r1" "t1" 1);
        pivot.with_Task (Some {| task.Id := "t4"; task.Name := "ship" |})
          (sample_relation "r4" "t4" 2);
        pivot.with_Task (Some {| task.Id := "t2"; task.Name := "test" |})
          (sample_relation "r2" "t2" 3);
        pivot.with_Task (Some {| task.Id := "t3"; task.Name := "pack" |})
          (sample_relation "r3" "t3" 4) ]).
Proof.
  rewrite (PutSteps_moves_and_renumbers sample_message_Get sample_validate_steps
             sample_find_relations sample_update_ok sample_find_tasks sample_sort
             (steps_request 3 1) sample_relations sample_tasks).
  - reflexivity.
  - intros k. reflexivity.
  - exact sample_sort_sorts.
  - reflexivity.
  - reflexivity.
  - exact sample_relations_numbered.
  - simpl. lia.
  - simpl. lia.
  - unfold int64_max. simpl. lia.
  - reflexivity.
Defined.

Lemma PutSteps_writes_witness :
  Permutation
    (fst (PutSteps sample_message_Get sample_validate_steps sample_find_relations
            sample_update_ok sample_find_tasks sample_sort (steps_request 3 1, None)))
    [ sample_relation "r4" "t4" 2; sample_relation "r2" "t2" 3;
      sample_relation "r3" "t3" 4 ].
Proof.
  apply (PutSteps_writes_the_rows_between sample_message_Get sample_validate_steps
           sample_find_relations sample_update_ok sample_find_tasks sample_sort
           (steps_request 3 1) sample_relations sample_tasks).
  - intros k. reflexivity.
  - exact sample_sort_sorts.
  - reflexivity.
  - reflexivity.
  - exact sample_relations_numbered.
  - simpl. lia.
  - simpl. lia.
  - unfold int64_max. simpl. lia.
  - reflexivity.
Defined.

(** A pipeline without relations: [B] in the sample store. *)
Lemma PutSteps_without_relations_witness :
  exists index : Z,
    PutSteps sample_message_Get sample_validate_steps sample_find_relations
      sample_update_ok sample_find_tasks sample_sort
      ({| putsteps.PipelineId := "B"; putsteps.Origin := 0; putsteps.Current := 0 |},
       None) =
      ([], IndexOutOfRange index 0).
Proof.
  apply (PutSteps_without_relations_panics sample_message_Get sample_validate_steps
           sample_find_relations sample_update_ok sample_find_tasks sample_sort);
    reflexivity.
Defined.

(** The second of four relations is dragged to position 4, one past the
    end. *)
Lemma PutSteps_current_beyond_end_witness :
  PutSteps sample_message_Get sample_validate_steps sample_find_relations
    sample_update_ok sample_find_tasks sample_sort (steps_request 1 4, None) =
    ([ sample_relation "r3" "t3" 2; sample_relation "r4" "t4" 3 ],
     IndexOutOfRange 4 4).
Proof.
  apply (PutSteps_current_beyond_end_panics_after_writing sample_message_Get
           sample_validate_steps sample_find_relations sample_update_ok sample_find_tasks
           sample_sort (steps_request 1 4) sample_relations).
  - intros k. reflexivity.
  - reflexivity.
  - reflexivity.
  - simpl. lia.
  - simpl. lia.
Defined.

Lemma PutSteps_origin_outside_witness :
  reorder_failed
    (snd (PutSteps sample_message_Get sample_validate_steps sample_find_relations
            sample_update_ok sample_find_tasks sample_sort (steps_request 4 0, None))) =
    true.
Proof.
  apply (PutSteps_origin_outside_never_succeeds sample_message_Get sample_validate_steps
           sample_find_relations sample_update_ok sample_find_tasks sample_sort
           (steps_request 4 0) sample_relations).
  - reflexivity.
  - reflexivity.
  - right. simpl. lia.
Defined.

(** With [Origin] one past the end and [Current] at the front, every step
    has been raised and written before the panic. *)
Example PutSteps_origin_past_end_shifts_all :
  PutSteps sample_message_Get sample_validate_steps sample_find_relations
    sample_update_ok sample_find_tasks sample_sort (steps_request 4 0, None) =
    ([ sample_relation "r1" "t1" 2; sample_relation "r2" "t2" 3;
       sample_relation "r3" "t3" 4; sample_relation "r4" "t4" 5 ],
     IndexOutOfRange 4 4).
Proof. reflexivity. Qed.

(** The store refuses the second write of a move from the first to the last
    place: two writes were made, the first of them accepted. *)
Lemma PutSteps_refused_write_witness :
  PutSteps sample_message_Get sample_validate_steps sample_find_relations
    sample_update_second_refused sample_find_tasks sample_sort
    (steps_request 0 3, None) =
    ([ sample_relation "r2" "t2" 1; sample_relation "r3" "t3" 2 ],
     Return (response.InternalServerError "排序失败" "database is locked"))
  /\ sample_update_second_refused 0 = None.
Proof.
  split; [reflexivity|].
  apply (PutSteps_stops_at_first_refused_write sample_message_Get sample_validate_steps
           sample_find_relations sample_update_second_refused sample_find_tasks
           sample_sort (steps_request 0 3, None) 0).
  - simpl. lia.
  - left. simpl. lia.
Defined.

(** GetTasks when the task [t3] is gone from the task table. *)
Lemma GetTasks_witness :
  exists data,
    GetTasks sample_find_relations
      (fun _ => ([ {| task.Id := "t1"; task.Name := "build" |};
                   {| task.Id := "t2"; task.Name := "test" |};
                   {| task.Id := "t4"; task.Name := "ship" |} ], None)) "A" =
      response.Success "Successful" data /\
    map (pivot.with_Task None) data = sample_relations /\
    map pivot.Task data =
      [ Some {| task.Id := "t1"; task.Name := "build" |};
        Some {| task.Id := "t2"; task.Name := "test" |};
        None;
        Some {| task.Id := "t4"; task.Name := "ship" |} ].
Proof.
  destruct (GetTasks_attaches_matching_tasks sample_find_relations
              (fun _ => ([ {| task.Id := "t1"; task.Name := "build" |};
                           {| task.Id := "t2"; task.Name := "test" |};
                           {| task.Id := "t4"; task.Name := "ship" |} ], None))
              "A" sample_relations
              [ {| task.Id := "t1"; task.Name := "build" |};
                {| task.Id := "t2"; task.Name := "test" |};
                {| task.Id := "t4"; task.Name := "ship" |} ]
              eq_refl eq_refl eq_refl)
    as [data [Hrun [Hrows _]]].
  - repeat constructor.
  - exists data. split; [exact Hrun|]. split; [exact Hrows|].
    injection Hrun as <-. reflexivity.
Defined.

(** ** Concrete runs from the controller to the watchers *)

(** Post of a pipeline bound to [n1], which draws the identifier [A]. *)
Lemma Post_witness :
  etcd_puts (fst (Post sample_conf sample_message_Get sample_validate_pipeline
                    sample_Marshal
                    ({| models.Id := ""; models.Tasks := []; models.Nodes := ["n1"] |}, None)
                    "A" "u1" None (Some "etcdserver: request timed out") None)) =
    [("/ects/pipelines/A", "enc(A)")] /\
  String.prefix "/ects/pipelines" "/ects/pipelines/A" = true /\
  snapshot_phase sample_Unmarshal [kv "/ects/pipelines/A" "enc(A)"] =
    ([PushEvent {| Type_ := PUT; Pipeline := pipeline_A |}], Done tt).
Proof.
  apply (Post_document_is_pushed_by_snapshot sample_conf sample_Unmarshal
           sample_message_Get sample_validate_pipeline sample_Marshal
           {| models.Id := ""; models.Tasks := []; models.Nodes := ["n1"] |}
           "A" "u1" "enc(A)" (Some "etcdserver: request timed out") None);
    reflexivity.
Defined.

(** PostNodes rebinds [B] from [n2] to [n1] and [n2]; then to [n2] alone, and
    [n1], taken off, hears nothing. *)
Lemma PostNodes_witness :
  etcd_puts (fst (PostNodes sample_conf sample_message_Get sample_validate_bind
                    sample_Marshal
                    ({| bindnode.PipelineId := "B"; bindnode.NodesId := ["n1"; "n2"] |}, None)
                    None None (pipeline_B, None) None)) =
    [("/ects/pipelines/B", "enc(B')")] /\
  pushed (fst (on_event sample_Unmarshal "n1" (sample_put "/ects/pipelines/B" "enc(B')"))) =
    [ {| Type_ := PUT; Pipeline := pipeline_B' |} ].
Proof.
  apply (PostNodes_reaches_the_listed_nodes sample_conf sample_Unmarshal
           sample_message_Get sample_validate_bind sample_Marshal
           {| bindnode.PipelineId := "B"; bindnode.NodesId := ["n1"; "n2"] |}
           pipeline_B "enc(B')" "n1" None None);
    reflexivity.
Defined.

Example PostNodes_taken_off_hears_nothing :
  etcd_puts (fst (PostNodes sample_conf sample_message_Get sample_validate_bind
                    sample_Marshal
                    ({| bindnode.PipelineId := "B"; bindnode.NodesId := ["n2"] |}, None)
                    None None (pipeline_B', None) None)) =
    [("/ects/pipelines/B", "enc(B)")] /\
  pushed (fst (on_event sample_Unmarshal "n1" (sample_put "/ects/pipelines/B" "enc(B)"))) =
    [].
Proof. split; reflexivity. Qed.


(** DeleteBy when the relational store refuses the deletion: the entry is
    gone from etcd, the row stays. *)
Example DeleteBy_row_survives :
  DeleteBy sample_conf "A" None (Some "database is locked") =
    ([ EtcdDelete "/ects/pipelines/A"; PipelineDestroy (with_Id "A" models.zero) ],
     Return (response.InternalServerError "Failed to delete pipeline"
               "database is locked")).
Proof. reflexivity. Qed.

Lemma kill_marker_witness :
  exists key val,
    store_calls (fst (PostKiller sample_conf sample_validate sample_message_Get
                        (sample_request, None) (Some {| clientv3.ID := 7 |}, None) None)) =
      [ClientGrant 2; ClientPut key val [clientv3.WithLease 7]] /\
    key = "/ects/killer/0b5ad9d2-7e0c-4c0b-9a57-6a1f4f3c2d10" /\
    killer_event sample_Unmarshal
      {| mvccpb.Type_ := mvccpb.PUT;
         mvccpb.Kv := {| mvccpb.Key := key; mvccpb.Value := val |};
         mvccpb.PrevKv := None |} =
      ([LogPrintln "unexpected end of JSON input"; LogPrintf registered_format ""],
       Done tt).
Proof.
  apply (kill_marker_reaches_the_watcher_without_identifier sample_conf sample_Unmarshal
           sample_validate sample_message_Get sample_request {| clientv3.ID := 7 |}
           None None None "unexpected end of JSON input");
    reflexivity.
Defined.

(** The third of four relations is dragged to position -1: the run of the
    model itself, and the same answer from the theorem. *)
Example PutSteps_third_to_minus_one :
  PutSteps sample_message_Get sample_validate_steps sample_find_relations
    sample_update_ok sample_find_tasks sample_sort (steps_request 2 (-1), None) =
    ([ sample_relation "r1" "t1" 2; sample_relation "r2" "t2" 3;
       sample_relation "r3" "t3" 0 ],
     Return (response.Success "Successful"
       [ pivot.with_Task (Some {| task.Id := "t3"; task.Name := "pack" |})
           (sample_relation "r3" "t3" 0);
         pivot.with_Task (Some {| task.Id := "t1"; task.Name := "build" |})
           (sample_relation "r1" "t1" 2);
         pivot.with_Task (Some {| task.Id := "t2"; task.Name := "test" |})
           (sample_relation "r2" "t2" 3);
         pivot.with_Task (Some {| task.Id := "t4"; task.Name := "ship" |})
           (sample_relation "r4" "t4" 4) ])).
Proof. reflexivity. Qed.


(** The last of four relations is dragged to the second place, and back. *)
Lemma PutSteps_moving_back_witness :
  snd (PutSteps sample_message_Get sample_validate_steps
         (fun _ => ([ sample_relation "r1" "t1" 1; sample_relation "r4" "t4" 2;
                      sample_relation "r2" "t2" 3; sample_relation "r3" "t3" 4 ], None))
         sample_update_ok sample_find_tasks sample_sort (steps_request 1 3, None)) =
    Return (response.Success "Successful"
      [ pivot.with_Task (Some {| task.Id := "t1"; task.Name := "build" |})
          (sample_relation "r1" "t1" 1);
        pivot.with_Task (Some {| task.Id := "t2"; task.Name := "test" |})
          (sample_relation "r2" "t2" 2);
        pivot.with_Task (Some {| task.Id := "t3"; task.Name := "pack" |})
          (sample_relation "r3" "t3" 3);
        pivot.with_Task (Some {| task.Id := "t4"; task.Name := "ship" |})
          (sample_relation "r4" "t4" 4) ]).
Proof.
  apply (PutSteps_moving_back_restores sample_message_Get sample_validate_steps
           sample_find_relations
           (fun _ => ([ sample_relation "r1" "t1" 1; sample_relation "r4" "t4" 2;
                        sample_relation "r2" "t2" 3; sample_relation "r3" "t3" 4 ], None))
           sample_update_ok sample_find_tasks sample_sort
           (steps_request 3 1) (steps_request 1 3) sample_relations
           sample_tasks sample_tasks).
  - intros k. reflexivity.
  - exact sample_sort_sorts.
  - reflexivity.
  - reflexivity.
  - exact sample_relations_numbered.
  - simpl. lia.
  - simpl. lia.
  - unfold int64_max. simpl. lia.
  - reflexivity.
  - reflexivity.
  - reflexivity.
  - reflexivity.
  - reflexivity.
  - reflexivity.
Defined.
